(** * HPCG start-up: parameter resolution in [HPCG_Init] (src/init.cpp)

    The development embeds the initialisation routine of the HPCG benchmark:
    the two command-line scans, the optional read of [hpcg.dat], the
    geometry normaliser, the broadcast and the copy into [HPCG_Params].
    The [int] slots of [iparams] are integers in [Z]; the array itself is a
    [list Z] read with [!!!] and written with [<[i:=v]>]. *)

From Stdlib Require Import ZArith Ascii String.
From stdpp Require Import base tactics option list strings pretty.

Local Open Scope Z_scope.

(** ** The C library functions the routine calls *)

Module LibC.

Definition INT_MIN : Z := - 2 ^ 31.
Definition INT_MAX : Z := 2 ^ 31 - 1.
Definition LONG_MIN : Z := - 2 ^ 63.
Definition LONG_MAX : Z := 2 ^ 63 - 1.

(** Conversion of a [long] to [int]: the low 32 bits, read as two's
    complement. *)
Definition to_int (z : Z) : Z := (z + 2 ^ 31) mod 2 ^ 32 - 2 ^ 31.

(** [strtol] saturates at the ends of [long]. *)
Definition strtol_clamp (z : Z) : Z := Z.max LONG_MIN (Z.min LONG_MAX z).

Definition code (c : ascii) : Z := Z.of_N (N_of_ascii c).

Definition strlen (s : string) : nat := String.length s.

(** [strncmp s1 s2 n]: compares at most [n] characters and stops at the
    terminating NUL of either string; the sign of the result is that of the
    first differing pair, taken as unsigned characters. *)
Fixpoint strncmp (s1 s2 : string) (n : nat) {struct n} : Z :=
  match n with
  | O => 0
  | S n' =>
      match s1, s2 with
      | EmptyString, EmptyString => 0
      | EmptyString, String c2 _ => 0 - code c2
      | String c1 _, EmptyString => code c1 - 0
      | String c1 t1, String c2 t2 =>
          if Ascii.eqb c1 c2 then strncmp t1 t2 n' else code c1 - code c2
      end
  end.

(** [s + n] for a pointer into a string of at least [n] characters. *)
Fixpoint advance (n : nat) (s : string) {struct n} : string :=
  match n, s with
  | S n', String _ t => advance n' t
  | _, _ => s
  end.

Definition isspace (c : ascii) : bool :=
  let k := code c in (k =? 32) || ((9 <=? k) && (k <=? 13)).

Definition digit_value (c : ascii) : option Z :=
  let k := code c in
  if (48 <=? k) && (k <=? 57) then Some (k - 48) else None.

Fixpoint skip_spaces (s : string) : string :=
  match s with
  | String c t => if isspace c then skip_spaces t else s
  | EmptyString => s
  end.

(** The value of the longest run of decimal digits at the head of [s],
    continuing the accumulator [acc]. *)
Fixpoint digits_value (s : string) (acc : Z) : Z :=
  match s with
  | String c t =>
      match digit_value c with
      | Some d => digits_value t (10 * acc + d)
      | None => acc
      end
  | EmptyString => acc
  end.

Definition starts_with_digit (s : string) : bool :=
  match s with
  | String c _ => bool_decide (is_Some (digit_value c))
  | EmptyString => false
  end.

(** [sscanf(s, "%d", p)]: white space is skipped, then an optional sign and
    a non-empty run of decimal digits are read.  [Some v] stands for a
    return value of 1 with [v] stored through [p]; [None] stands for a
    return value of 0 or [EOF], in which case nothing is stored.  A subject
    sequence outside the range of [int] is converted the way the GNU C
    library does on LP64: [strtol], then a conversion to [int] (ISO C leaves
    that case undefined). *)
Definition sscanf_d (s : string) : option Z :=
  let s1 := skip_spaces s in
  let '(negative, s2) :=
    match s1 with
    | String "-"%char t => (true, t)
    | String "+"%char t => (false, t)
    | _ => (false, s1)
    end in
  if starts_with_digit s2 then
    let m := digits_value s2 0 in
    Some (to_int (strtol_clamp (if negative : bool then - m else m)))
  else None.

End LibC.

Import LibC.

(** ** The parameter vector and the command-line scans *)

(** Lines 42-48. *)
Definition startswith (s prefix : string) : Z :=
  let n := strlen prefix in
  if bool_decide (strncmp s prefix n ≠ 0) then 0 else 1.

(** Line 72. *)
Definition cparams : list string :=
  ["--nx="; "--ny="; "--nz="; "--rt="; "--pz="; "--zl="; "--zu=";
   "--npx="; "--npy="; "--npz="]%string.

(** Line 75: [(sizeof cparams) / (sizeof cparams[0])]. *)
Definition nparams : nat := length cparams.

(** Line 81. *)
Definition zero_iparams : list Z := replicate nparams 0.

(** Line 85, one iteration.  [argv] holds [argc] strings, [argv !! 0] being
    the program name; [argc <= i+1] is the failure of the lookup. *)
Definition positional_step (argv : list string) (iparams : list Z) (i : nat)
  : list Z :=
  match argv !! (i + 1)%nat with
  | None => <[i := 0]> iparams
  | Some a =>
      match sscanf_d a with
      | None => <[i := 0]> iparams
      | Some v =>
          let stored := <[i := v]> iparams in
          if bool_decide (stored !!! i < 10) then <[i := 0]> stored else stored
      end
  end.

(** Lines 84-85. *)
Definition positional_scan (argv : list string) (iparams : list Z) : list Z :=
  foldl (positional_step argv) iparams (seq 0 nparams).

(** Lines 90-92, for one argument and one prefix index [j]. *)
Definition prefix_step (a : string) (iparams : list Z) (j : nat) : list Z :=
  if bool_decide (startswith a (cparams !!! j) ≠ 0) then
    match sscanf_d (advance (strlen (cparams !!! j)) a) with
    | Some v => <[j := v]> iparams
    | None => <[j := 0]> iparams
    end
  else iparams.

(** Lines 89-92, for one argument. *)
Definition prefix_arg (iparams : list Z) (a : string) : list Z :=
  foldl (prefix_step a) iparams (seq 0 nparams).

(** Lines 88-92: [i] runs from 1 while [argv[i]] is not the terminating null
    pointer, that is over every argument after the program name. *)
Definition prefix_scan (argv : list string) (iparams : list Z) : list Z :=
  foldl prefix_arg iparams (drop 1 argv).

(** Lines 78-92. *)
Definition parse_command_line (argv : list string) : list Z :=
  prefix_scan argv (positional_scan argv zero_iparams).


(** ** The configuration file *)

(** Modelled from the spec: [ReadHpcgDat] (declared in ReadHpcgDat.hpp, which
    is not among the sources).  The loader "reads up to three geometry
    integers and a runtime integer and a process-grid triple"; the runtime is
    populated only when the loader is told to.  A field that is [None] is a
    slot the loader leaves as it found it.  [dat_status] is the value the
    call returns. *)
Record HpcgDat := mkHpcgDat {
  dat_nx : option Z; dat_ny : option Z; dat_nz : option Z;
  dat_rt : option Z;
  dat_npx : option Z; dat_npy : option Z; dat_npz : option Z;
  dat_status : Z
}.

(** [p[k] = v] when the file supplies [v]. *)
Definition supply (k : nat) (o : option Z) (iparams : list Z) : list Z :=
  match o with
  | Some v => <[k := v]> iparams
  | None => iparams
  end.

(** Modelled from the spec: the body of [ReadHpcgDat], which is not among
    the sources.  In the call
    [ReadHpcgDat(localDimensions, secondsPerRun, localProcDimensions)] the
    three pointers are offsets into [iparams]; [secondsPerRun] may be the
    null pointer, here [None], and then the runtime is not populated. *)
Definition ReadHpcgDat (f : HpcgDat) (localDimensions : nat)
    (secondsPerRun : option nat) (localProcDimensions : nat)
    (iparams : list Z) : Z * list Z :=
  let m1 := supply localDimensions (dat_nx f) iparams in
  let m2 := supply (localDimensions + 1) (dat_ny f) m1 in
  let m3 := supply (localDimensions + 2) (dat_nz f) m2 in
  let m4 := match secondsPerRun with
            | Some p => supply p (dat_rt f) m3
            | None => m3
            end in
  let m5 := supply localProcDimensions (dat_npx f) m4 in
  let m6 := supply (localProcDimensions + 1) (dat_npy f) m5 in
  let m7 := supply (localProcDimensions + 2) (dat_npz f) m6 in
  (dat_status f, m7).

(** ** The normaliser, lines 102-111 *)

(** Lines 107-108. *)
Definition fill_step (i : nat) (iparams : list Z) (j : nat) : list Z :=
  if bool_decide (iparams !!! ((i + j) mod 3)%nat > iparams !!! i)
  then <[i := iparams !!! ((i + j) mod 3)%nat]> iparams
  else iparams.

(** Lines 105-110, the body of the loop over [i]. *)
Definition normalize_dim (iparams : list Z) (i : nat) : list Z :=
  let filled :=
    if bool_decide (iparams !!! i < 16)
    then foldl (fill_step i) iparams (seq 1 2)
    else iparams in
  if bool_decide (filled !!! i < 16) then <[i := 16]> filled else filled.

(** Lines 104-111. *)
Definition normalize (iparams : list Z) : list Z :=
  foldl normalize_dim iparams (seq 0 3).

(** The rule in the words of the specification: a dimension below 16 is
    replaced with the maximum of the other two, and clamped to 16 if it is
    still below 16 after that substitution; dimensions are taken in the
    order 0, 1, 2. *)
Definition spec_normalize_dim (v : list Z) (i : nat) : list Z :=
  if bool_decide (v !!! i < 16) then
    let substituted :=
      <[i := Z.max (v !!! ((i + 1) mod 3)%nat) (v !!! ((i + 2) mod 3)%nat)]> v in
    if bool_decide (substituted !!! i < 16) then <[i := 16]> substituted
    else substituted
  else v.

Definition spec_normalize (v : list Z) : list Z :=
  spec_normalize_dim (spec_normalize_dim (spec_normalize_dim v 0) 1) 2.

(** ** The process, its build and its surroundings *)

(** The preprocessor symbols the routine tests. *)
Record Build := mkBuild {
  HPCG_NO_MPI : bool;
  HPCG_NO_OPENMP : bool;
  HPCG_DEBUG : bool;   (* HPCG_DEBUG or HPCG_DETAILED_DEBUG *)
  WIN32 : bool
}.

(** The fields of [struct tm] that line 151 reads. *)
Record tm := mkTm {
  tm_year : Z; tm_mon : Z; tm_mday : Z; tm_hour : Z; tm_min : Z; tm_sec : Z
}.

(** What one process sees when it calls [HPCG_Init]. *)
Record World := mkWorld {
  build : Build;
  argv : list string;          (* argv[0] .. argv[argc-1] *)
  hpcg_dat : HpcgDat;          (* what this process finds in hpcg.dat *)
  world_rank : Z;              (* MPI_Comm_rank *)
  world_size : Z;              (* MPI_Comm_size *)
  root_buffer : list Z;        (* the buffer rank 0 passes to MPI_Bcast *)
  omp_num_threads : Z;         (* omp_get_num_threads in the parallel region *)
  localtime : tm
}.

Record HPCG_Params := mkParams {
  comm_size : Z; comm_rank : Z; numThreads : Z;
  nx : Z; ny : Z; nz : Z;
  runningTime : Z;
  npx : Z; npy : Z; npz : Z;
  pz : Z; zl : Z; zu : Z
}.

(** Calls that reach outside the process, in program order. *)
Inductive Event :=
| ReadHpcgDat_called (secondsPerRun : option nat)
| MPI_Bcast_called (count : nat) (root : Z).

(** Where [HPCG_fout] writes after the call. *)
Inductive LogSink :=
| SharesStdout
| OpenedFile (name : string).

Record Outcome := mkOutcome {
  status : Z;                 (* the returned int *)
  params : HPCG_Params;
  calls : list Event;
  HPCG_fout : LogSink
}.

(** Lines 22-26. *)
Definition NULLDEVICE (b : Build) : string :=
  if WIN32 b then "nul"%string else "/dev/null"%string.

(** [MPI_Bcast(buf, count, MPI_INT, 0, MPI_COMM_WORLD)] as one process sees
    it: the root keeps its buffer, every other rank receives the root's. *)
Definition MPI_Bcast (rank : Z) (from_root buf : list Z) : list Z :=
  if bool_decide (rank = 0) then buf else from_root.

(** The conversion [%0wd] of [sprintf]: sign, then zeros up to width [w]. *)
Definition fmt_0d (w : nat) (z : Z) : string :=
  let sign := if bool_decide (z < 0) then "-"%string else ""%string in
  let digits := pretty (Z.abs_N z) in
  let pad := (w - (String.length sign + String.length digits))%nat in
  (sign +:+ String.concat "" (replicate pad "0"%string) +:+ digits)%string.

(** Lines 151-152: the time stamp shared by both file names. *)
Definition stamp (t : tm) : string :=
  ("hpcg" +:+ fmt_0d 4 (1900 + tm_year t) +:+ fmt_0d 2 (tm_mon t + 1)
   +:+ fmt_0d 2 (tm_mday t) +:+ "T" +:+ fmt_0d 2 (tm_hour t)
   +:+ fmt_0d 2 (tm_min t) +:+ fmt_0d 2 (tm_sec t))%string.

(** ** [HPCG_Init], lines 66-171 *)

(** Lines 95-100: the pointer [rt] and the conditional read. *)
Definition rt_pointer (iparams : list Z) : option nat :=
  if bool_decide (iparams !!! 3%nat ≠ 0) then None else Some 3%nat.

Definition no_geometry (iparams : list Z) : bool :=
  bool_decide (iparams !!! 0%nat = 0) && bool_decide (iparams !!! 1%nat = 0)
  && bool_decide (iparams !!! 2%nat = 0).

Definition HPCG_Init (w : World) : Outcome :=
  let iparams := zero_iparams in
  let iparams := positional_scan (argv w) iparams in
  let iparams := prefix_scan (argv w) iparams in
  let rt := rt_pointer iparams in
  let '(iparams, broadcastParams, calls1) :=
    if no_geometry iparams
    then (snd (ReadHpcgDat (hpcg_dat w) 0 rt 7 iparams), true,
          [ReadHpcgDat_called rt])
    else (iparams, false, []) in
  let iparams := normalize iparams in
  let '(iparams, calls2) :=
    if negb (HPCG_NO_MPI (build w)) && broadcastParams
    then (MPI_Bcast (world_rank w) (root_buffer w) iparams,
          [MPI_Bcast_called nparams 0])
    else (iparams, []) in
  let rank := if HPCG_NO_MPI (build w) then 0 else world_rank w in
  let size := if HPCG_NO_MPI (build w) then 1 else world_size w in
  let threads := if HPCG_NO_OPENMP (build w) then 1 else omp_num_threads w in
  let fname := (stamp (localtime w) +:+ ".txt")%string in
  let fout :=
    if bool_decide (0 = rank) then SharesStdout
    else if HPCG_DEBUG (build w)
         then OpenedFile (stamp (localtime w) +:+ "_" +:+ pretty rank +:+ ".txt")
         else OpenedFile (NULLDEVICE (build w)) in
  {| status := 0;
     params := {| comm_size := size; comm_rank := rank; numThreads := threads;
                  nx := iparams !!! 0%nat; ny := iparams !!! 1%nat;
                  nz := iparams !!! 2%nat;
                  runningTime := iparams !!! 3%nat;
                  pz := iparams !!! 4%nat; zl := iparams !!! 5%nat;
                  zu := iparams !!! 6%nat;
                  npx := iparams !!! 7%nat; npy := iparams !!! 8%nat;
                  npz := iparams !!! 9%nat |};
     calls := calls1 ++ calls2;
     HPCG_fout := fout |}.

(** ** Derived notions used to state the properties *)

(** The ten resolved fields in the order of the parameter vector. *)
Definition resolved (p : HPCG_Params) : list Z :=
  [nx p; ny p; nz p; runningTime p; pz p; zl p; zu p; npx p; npy p; npz p].

Definition slots (v : list Z) : list Z :=
  (λ k, v !!! k) <$> seq 0 nparams.

(** Lines 97-100 as a function of the vector alone. *)
Definition file_stage (f : HpcgDat) (iparams : list Z) : list Z :=
  if no_geometry iparams
  then snd (ReadHpcgDat f 0 (rt_pointer iparams) 7 iparams)
  else iparams.

(** The vector a process holds when it reaches line 113. *)
Definition local_vector (args : list string) (f : HpcgDat) : list Z :=
  normalize (file_stage f (parse_command_line args)).

(** The vector a process holds when it reaches line 120. *)
Definition final_vector (w : World) : list Z :=
  if negb (HPCG_NO_MPI (build w))
     && no_geometry (parse_command_line (argv w))
  then MPI_Bcast (world_rank w) (root_buffer w)
         (local_vector (argv w) (hpcg_dat w))
  else local_vector (argv w) (hpcg_dat w).

(** Rank 0 was started with the arguments of [w] and found [f] in its
    configuration file: what a process of another rank receives is what
    rank 0 holds at line 116. *)
Definition root_ran_with (w : World) (f : HpcgDat) : Prop :=
  world_rank w ≠ 0 → root_buffer w = local_vector (argv w) f.

Definition is_read (e : Event) : bool :=
  match e with ReadHpcgDat_called _ => true | _ => false end.

Definition is_bcast (e : Event) : bool :=
  match e with MPI_Bcast_called _ _ => true | _ => false end.

(** The call made the process read the configuration file. *)
Definition reads_file (o : Outcome) : bool := existsb is_read (calls o).

(** The call made the process take part in the collective broadcast. *)
Definition broadcasts (o : Outcome) : bool := existsb is_bcast (calls o).

(** [strip_prefix p a = Some s] when [a] is [p] followed by [s]. *)
Fixpoint strip_prefix (p a : string) : option string :=
  match p, a with
  | EmptyString, _ => Some a
  | String c p', String d a' =>
      if Ascii.eqb c d then strip_prefix p' a' else None
  | String _ _, EmptyString => None
  end.

(** A C string holds no NUL before its end. *)
Fixpoint nul_free (s : string) : bool :=
  match s with
  | String c t => negb (code c =? 0) && nul_free t
  | EmptyString => true
  end.

(** What the argument [a] says about slot [j]: nothing when it does not carry
    the [j]-th prefix, else the integer its suffix parses to, 0 when the
    suffix does not parse. *)
Definition flag_reading (j : nat) (a : string) : option Z :=
  (λ s, default 0 (sscanf_d s)) <$> strip_prefix (cparams !!! j) a.

(** The reading of the last argument that carries the [j]-th prefix. *)
Definition flag_value (j : nat) (args : list string) : option Z :=
  last (omap (flag_reading j) (drop 1 args)).

(** What a positional argument is taken for: its integer when it parses to
    one that is at least 10, else 0. *)
Definition positional_reading (args : list string) (i : nat) : Z :=
  match args !! (i + 1)%nat with
  | Some a =>
      match sscanf_d a with
      | Some v => if bool_decide (v < 10) then 0 else v
      | None => 0
      end
  | None => 0
  end.

(** ** Worlds used as concrete inputs *)

Definition t0 : tm := mkTm 126 9 30 12 5 7.
Definition mpi_build : Build := mkBuild false false false false.
Definition serial_build : Build := mkBuild true true false false.
Definition no_file : HpcgDat :=
  mkHpcgDat None None None None None None None (-1).
Definition dat_32_60 : HpcgDat :=
  mkHpcgDat (Some 32) (Some 32) (Some 32) (Some 60) (Some 1) (Some 1) (Some 1) 0.

Definition argv_flags : list string :=
  ["xhpcg"; "--nx=8"; "--rt=5"; "--ny=64"; "--bogus"; "--rt=-7"; "--pz=x"]%string.

(** No argument, serial build. *)
Definition serial_no_args : World :=
  mkWorld serial_build ["xhpcg"%string] dat_32_60 0 1 [] 1 t0.

(** No argument, MPI build, a process of rank 1 out of 4. *)
Definition rank1_no_args : World :=
  mkWorld mpi_build ["xhpcg"%string] dat_32_60 1 4
    [32; 32; 32; 60; 0; 0; 0; 1; 1; 1] 2 t0.

(** Four positional arguments on the coordinating process. *)
Definition four_positional : World :=
  mkWorld mpi_build ["xhpcg"; "32"; "32"; "32"; "45"]%string dat_32_60 0 4
    [] 2 t0.

(** [--rt=0] and no geometry, on the coordinating process. *)
Definition rt_zero : World :=
  mkWorld mpi_build ["xhpcg"; "--rt=0"]%string dat_32_60 0 4 [] 2 t0.

(** [--rt=45] and no geometry, on a process of rank 1. *)
Definition rank1_rt45 : World :=
  mkWorld mpi_build ["xhpcg"; "--rt=45"]%string dat_32_60 1 4
    [32; 32; 32; 45; 0; 0; 0; 1; 1; 1] 2 t0.

(** Geometry and a negative [--pz=] on the command line. *)
Definition negative_pz : World :=
  mkWorld mpi_build ["xhpcg"; "--nx=16"; "--pz=-5"]%string no_file 3 4
    [16; 16; 16; 0; -5; 0; 0; 0; 0; 0] 2 t0.

(** The process takes part in the broadcast of line 116 as a receiver: the
    build has MPI, the command line gave no geometry and the rank is not 0. *)
Definition receives (w : World) : bool :=
  negb (HPCG_NO_MPI (build w))
  && no_geometry (parse_command_line (argv w))
  && negb (bool_decide (world_rank w = 0)).

Definition dat_32_90 : HpcgDat :=
  mkHpcgDat (Some 32) (Some 32) (Some 32) (Some 90) (Some 1) (Some 1) (Some 1) 0.

(** No argument, rank 1; the process finds a runtime of 90 in its own file
    while the coordinating process found 60 in its own. *)
Definition rank1_own_rt90 : World :=
  mkWorld mpi_build ["xhpcg"%string] dat_32_90 1 4
    [32; 32; 32; 60; 0; 0; 0; 1; 1; 1] 2 t0.

(** [--rt=] with a suffix that is no number and no geometry, on the
    coordinating process. *)
Definition rt_unparsable : World :=
  mkWorld mpi_build ["xhpcg"; "--rt=soon"]%string dat_32_60 0 4 [] 2 t0.

Definition debug_build : Build := mkBuild false false true false.

(** Two processes of rank 2 in a debug build, started differently. *)
Definition debug_rank2 : World :=
  mkWorld debug_build ["xhpcg"; "--nx=32"]%string no_file 2 4 [] 2 t0.

Definition debug_rank2' : World :=
  mkWorld debug_build ["xhpcg"; "64"; "64"; "64"]%string dat_32_60 2 8 [] 1 t0.

(** Large geometry and more on the command line, rank 1. *)
Definition large_geometry : World :=
  mkWorld mpi_build
    ["xhpcg"; "--nx=104"; "--ny=16"; "--nz=32"; "--rt=30"; "--npx=2"]%string
    dat_32_60 1 4 [] 2 t0.

(** The ranges ISO C gives the fields of [struct tm]; the year is any [int]
    for which line 152 does not overflow. *)
Definition tm_in_range (t : tm) : Prop :=
  INT_MIN ≤ tm_year t ≤ INT_MAX - 1900
  ∧ 0 ≤ tm_mon t ≤ 11 ∧ 1 ≤ tm_mday t ≤ 31
  ∧ 0 ≤ tm_hour t ≤ 23 ∧ 0 ≤ tm_min t ≤ 59 ∧ 0 ≤ tm_sec t ≤ 60.

(** Line 151: what every process writes into [fname]. *)
Definition fname_151 (t : tm) : string := (stamp t +:+ ".txt")%string.

(** Line 160: what a process of non-zero rank writes into [fname] in a
    debug build. *)
Definition fname_160 (t : tm) (rank : Z) : string :=
  (stamp t +:+ "_" +:+ pretty rank +:+ ".txt")%string.

(** ** Arrays *)

Section arrays.
Implicit Types (v : list Z) (i j k : nat).

Lemma lookup_total_insert_same v i x :
  (i < length v)%nat → <[i := x]> v !!! i = x.
Proof. apply list_lookup_total_insert_eq. Qed.

Lemma lookup_total_insert_other v i k x :
  i ≠ k → <[i := x]> v !!! k = v !!! k.
Proof. apply list_lookup_total_insert_ne. Qed.

(** A loop that stores [g j] into slot [j] for the [j] of [js] where [g] is
    defined leaves, in slot [k], the value for [k] if there is one. *)
Lemma foldl_store (g : nat → option Z) (js : list nat) v k :
  NoDup js → (k < length v)%nat →
  foldl (λ u j, match g j with Some x => <[j := x]> u | None => u end) v js
    !!! k
  = if decide (k ∈ js) then default (v !!! k) (g k) else v !!! k.
Proof.
  intros Hnd; revert v.
  induction Hnd as [|j js Hj Hnd IH]; intros v Hk; cbn [foldl].
  - case_decide as Hin; [by apply elem_of_nil in Hin | done].
  - rewrite IH by (destruct (g j); by rewrite ?length_insert).
    destruct (decide (k = j)) as [->|Hne].
    + repeat case_decide; try done.
      * destruct (g j); simpl; [by rewrite lookup_total_insert_same | done].
      * exfalso. match goal with H : _ ∉ _ :: _ |- _ => apply H, list_elem_of_here end.
    + assert (Hv : match g j with Some x => <[j:=x]> v | None => v end !!! k
                   = v !!! k).
      { destruct (g j); [by rewrite lookup_total_insert_other | done]. }
      rewrite Hv.
      destruct (decide (k ∈ js)) as [Hin|Hin],
               (decide (k ∈ j :: js)) as [Hin'|Hin']; try done.
      * destruct Hin'. by apply elem_of_cons; right.
      * by apply elem_of_cons in Hin' as [?|?].
Qed.

Lemma foldl_store_length (g : nat → option Z) (js : list nat) v :
  length (foldl (λ u j, match g j with Some x => <[j := x]> u | None => u end)
            v js) = length v.
Proof.
  revert v; induction js as [|j js IH]; intros v; simpl; [done|].
  rewrite IH. destruct (g j); by rewrite ?length_insert.
Qed.

Lemma slots_id v : length v = nparams → slots v = v.
Proof.
  intros Hlen. unfold slots. apply list_eq; intros k.
  rewrite list_lookup_fmap.
  destruct (decide (k < nparams)%nat) as [Hk|Hk].
  - rewrite lookup_seq_lt by done. simpl.
    symmetry. apply list_lookup_lookup_total_lt. lia.
  - rewrite lookup_seq_ge by lia. simpl. symmetry.
    apply lookup_ge_None. lia.
Qed.

End arrays.

(** ** The normaliser *)

(** Reads and writes at constant indices of an array whose first cells are
    explicit. *)
Ltac read_slots :=
  cbn [lookup_total list_lookup_total insert list_insert] in *.

Section normaliser.
Implicit Types (v : list Z) (i k : nat).

Lemma fill_step_length i v j : length (fill_step i v j) = length v.
Proof. unfold fill_step. case_bool_decide; by rewrite ?length_insert. Qed.

Lemma normalize_dim_length v i : length (normalize_dim v i) = length v.
Proof.
  unfold normalize_dim. cbn [foldl seq].
  repeat case_bool_decide;
    by rewrite ?length_insert, ?fill_step_length.
Qed.

Lemma normalize_length v : length (normalize v) = length v.
Proof. unfold normalize. cbn [foldl seq]. by rewrite !normalize_dim_length. Qed.

Lemma fill_step_other i v j k : i ≠ k → fill_step i v j !!! k = v !!! k.
Proof.
  intros. unfold fill_step.
  case_bool_decide; by rewrite ?lookup_total_insert_other.
Qed.

(** One iteration of the outer loop writes slot [i] only. *)
Lemma normalize_dim_other v i k : i ≠ k → normalize_dim v i !!! k = v !!! k.
Proof.
  intros. unfold normalize_dim. cbn [foldl seq].
  repeat case_bool_decide;
    by rewrite ?lookup_total_insert_other, ?fill_step_other.
Qed.

(** One iteration of the outer loop leaves at least 16 in slot [i]. *)
Lemma normalize_dim_floor v i :
  (i < length v)%nat → 16 ≤ normalize_dim v i !!! i.
Proof.
  intros. unfold normalize_dim.
  set (filled := if bool_decide (v !!! i < 16) then _ else v).
  assert (length filled = length v) as Hlen.
  { subst filled. cbn [foldl seq].
    case_bool_decide; by rewrite ?fill_step_length. }
  case_bool_decide; [|lia].
  rewrite lookup_total_insert_same; lia.
Qed.

(** The inner loop and the clamp, against the rule as the specification
    words it, for one dimension. *)
Lemma normalize_dim_refines v i :
  (i < 3)%nat → (3 ≤ length v)%nat →
  normalize_dim v i = spec_normalize_dim v i.
Proof.
  intros Hi Hlen.
  destruct v as [|a [|b [|c rest]]]; cbn [length] in Hlen; try lia.
  destruct i as [|[|[|i]]]; try lia;
    unfold normalize_dim, spec_normalize_dim, fill_step;
    cbn [foldl seq Nat.add Nat.modulo Nat.divmod snd fst Nat.sub]; read_slots;
    repeat (case_bool_decide; read_slots);
    try lia; try done; repeat (f_equal; try lia).
Qed.

Lemma spec_normalize_dim_length v i :
  length (spec_normalize_dim v i) = length v.
Proof.
  unfold spec_normalize_dim.
  repeat case_bool_decide; by rewrite ?length_insert.
Qed.

Lemma normalize_unfold v :
  normalize v = normalize_dim (normalize_dim (normalize_dim v 0) 1) 2.
Proof. reflexivity. Qed.

Lemma normalize_other v k : (3 ≤ k)%nat → normalize v !!! k = v !!! k.
Proof.
  intros. rewrite normalize_unfold.
  rewrite !normalize_dim_other by lia. done.
Qed.

End normaliser.

(** C1. For every parameter vector the normaliser takes the three geometry
    dimensions in the order 0, 1, 2; it replaces a dimension below 16 with
    the maximum of the other two as they stand at that point and clamps it
    to 16 if it is still below 16 (the loops of lines 104-111 compute the
    rule as the specification words it); afterwards every geometry dimension
    is at least 16. *)
Theorem normalize_fill_rule (v : list Z) :
  length v = nparams →
  normalize v = spec_normalize v
  ∧ ∀ i, (i < 3)%nat → 16 ≤ normalize v !!! i.
Proof.
  intros Hlen. change nparams with 10%nat in Hlen. split.
  - rewrite normalize_unfold. unfold spec_normalize.
    rewrite (normalize_dim_refines v 0) by lia.
    rewrite (normalize_dim_refines _ 1)
      by (rewrite ?spec_normalize_dim_length; lia).
    rewrite (normalize_dim_refines _ 2)
      by (rewrite ?spec_normalize_dim_length; lia).
    done.
  - intros i Hi. rewrite normalize_unfold.
    destruct i as [|[|[|i]]]; try lia.
    + rewrite !normalize_dim_other by lia.
      apply normalize_dim_floor. lia.
    + rewrite normalize_dim_other by lia.
      apply normalize_dim_floor. rewrite normalize_dim_length. lia.
    + apply normalize_dim_floor. rewrite !normalize_dim_length. lia.
Qed.

Lemma normalize_fill_rule_witness :
  normalize [8; 64; 8; 0; 0; 0; 0; 0; 0; 0]
  = spec_normalize [8; 64; 8; 0; 0; 0; 0; 0; 0; 0]
  ∧ ∀ i, (i < 3)%nat → 16 ≤ normalize [8; 64; 8; 0; 0; 0; 0; 0; 0; 0] !!! i.
Proof. apply (normalize_fill_rule [8; 64; 8; 0; 0; 0; 0; 0; 0; 0]). reflexivity. Defined.

(** C9. The normalisation pass writes the three geometry slots only: for
    every parameter vector the slots of index 3 and above (runningTime, pz,
    zl, zu, npx, npy, npz) are the same before and after it. *)
Theorem normalize_frame (v : list Z) (k : nat) :
  (3 ≤ k)%nat → normalize v !! k = v !! k.
Proof.
  intros Hk.
  destruct (decide (k < length v)%nat) as [Hlt|Hge].
  - rewrite !list_lookup_lookup_total_lt by (rewrite ?normalize_length; lia).
    by rewrite normalize_other.
  - rewrite !(proj2 (lookup_ge_None _ _)); rewrite ?normalize_length; (done || lia).
Qed.

Lemma normalize_frame_witness :
  normalize [8; 64; 8; 30; -1; 2; 3; 4; 5; 6] !! 3%nat
  = [8; 64; 8; 30; -1; 2; 3; 4; 5; 6] !! 3%nat.
Proof. apply (normalize_frame [8; 64; 8; 30; -1; 2; 3; 4; 5; 6] 3). lia. Defined.

(** ** Strings and prefixes *)

Section prefixes.
Implicit Types (p a s : string) (c d : ascii).

(** What [sscanf] stores is an [int]. *)
Lemma sscanf_d_range s x : sscanf_d s = Some x → INT_MIN ≤ x ≤ INT_MAX.
Proof.
  unfold sscanf_d.
  destruct (match skip_spaces s with
            | String "-"%char t => (true, t)
            | String "+"%char t => (false, t)
            | _ => (false, skip_spaces s)
            end) as [negative s2].
  destruct (starts_with_digit s2); [|done].
  intros [= <-]. unfold to_int, INT_MIN, INT_MAX.
  pose proof (Z.mod_pos_bound
                (strtol_clamp (if negative then - digits_value s2 0
                               else digits_value s2 0) + 2 ^ 31) (2 ^ 32)).
  lia.
Qed.

Example stamp_t0 : stamp t0 = "hpcg20261030T120507"%string.
Proof. reflexivity. Qed.

Lemma code_inj c d : code c = code d → c = d.
Proof.
  unfold code. intros H%(inj Z.of_N).
  rewrite <- (ascii_N_embedding c), <- (ascii_N_embedding d). by f_equal.
Qed.

Lemma append_empty s : ("" +:+ s)%string = s.
Proof. reflexivity. Qed.

Lemma append_String c p s : (String c p +:+ s)%string = String c (p +:+ s).
Proof. reflexivity. Qed.

Lemma strip_prefix_app p a s :
  strip_prefix p a = Some s ↔ a = (p +:+ s)%string.
Proof.
  revert a. induction p as [|c p IH]; intros a; cbn [strip_prefix].
  - rewrite append_empty. split; congruence.
  - rewrite append_String. destruct a as [|d a].
    + split; congruence.
    + destruct (Ascii.eqb_spec c d) as [->|Hne].
      * rewrite IH. split; congruence.
      * split; congruence.
Qed.

(** [strncmp] over the length of the prefix is 0 exactly when the prefix
    can be stripped. *)
Lemma strncmp_strip_prefix p a :
  nul_free p = true →
  strncmp a p (strlen p) = 0 ↔ is_Some (strip_prefix p a).
Proof.
  revert a. induction p as [|c p IH]; intros a Hnul;
    cbn [strlen String.length strncmp strip_prefix nul_free] in *.
  - split; eauto.
  - apply andb_true_iff in Hnul as [Hc Hp].
    apply negb_true_iff, Z.eqb_neq in Hc.
    destruct a as [|d a].
    + split; [lia | intros []; congruence].
    + rewrite (Ascii.eqb_sym d c).
      destruct (Ascii.eqb_spec c d) as [->|Hne].
      * by apply IH.
      * split; [|intros []; congruence].
        intros H0. destruct Hne. symmetry. apply code_inj. lia.
Qed.

Lemma advance_strip_prefix p a s :
  strip_prefix p a = Some s → advance (strlen p) a = s.
Proof.
  revert a. induction p as [|c p IH]; intros a;
    cbn [strlen String.length advance strip_prefix].
  - destruct a; congruence.
  - destruct a as [|d a]; [congruence|].
    destruct (Ascii.eqb c d); [apply IH | congruence].
Qed.

Lemma cparams_nul_free j :
  (j < nparams)%nat → nul_free (cparams !!! j) = true.
Proof.
  intros Hj. do 10 (destruct j as [|j]; [reflexivity|]).
  unfold nparams in Hj. cbn in Hj. lia.
Qed.

(** Lines 90-92 store the reading of the argument, when it has one. *)
Lemma prefix_step_reading a (v : list Z) j :
  (j < nparams)%nat →
  prefix_step a v j
  = match flag_reading j a with Some x => <[j := x]> v | None => v end.
Proof.
  intros Hj. unfold prefix_step, startswith, flag_reading.
  pose proof (strncmp_strip_prefix (cparams !!! j) a (cparams_nul_free j Hj))
    as Hcmp.
  destruct (strip_prefix (cparams !!! j) a) as [s|] eqn:Hs; cbn [fmap option_fmap option_map].
  - rewrite (proj2 Hcmp) by eauto.
    rewrite (bool_decide_false (0 ≠ 0)) by (intros H0; by apply H0).
    rewrite bool_decide_true by done.
    rewrite (advance_strip_prefix _ _ _ Hs).
    by destruct (sscanf_d s).
  - rewrite (bool_decide_true (strncmp _ _ _ ≠ 0)).
    + by rewrite bool_decide_false by (intros H0; by apply H0).
    + intros H0. apply Hcmp in H0 as [? ?]. congruence.
Qed.

End prefixes.

(** ** The two scans of the command line *)

Section command_line.
Implicit Types (v : list Z) (args : list string) (a : string) (j k : nat).

Lemma foldl_ext_in {A B} (f g : A → B → A) (l : list B) (x : A) :
  (∀ y b, b ∈ l → f y b = g y b) → foldl f x l = foldl g x l.
Proof.
  revert x. induction l as [|b l IH]; intros x Hfg; cbn [foldl]; [done|].
  rewrite Hfg by apply list_elem_of_here.
  apply IH. intros y c Hc. apply Hfg. by apply elem_of_cons; right.
Qed.

Lemma default_last_cons {A} (d y : A) (l : list A) :
  default d (last (y :: l)) = default y (last l).
Proof.
  revert d y. induction l as [|x l IH]; intros d y; [done|].
  change (last (y :: x :: l)) with (last (x :: l)).
  by rewrite (IH d x), (IH y x).
Qed.

Lemma prefix_arg_stores v a :
  prefix_arg v a
  = foldl (λ u j, match flag_reading j a with
                  | Some x => <[j := x]> u
                  | None => u
                  end) v (seq 0 nparams).
Proof.
  unfold prefix_arg. apply foldl_ext_in. intros u j Hj.
  apply prefix_step_reading. apply elem_of_seq in Hj. lia.
Qed.

Lemma prefix_arg_length v a : length (prefix_arg v a) = length v.
Proof. rewrite prefix_arg_stores. apply foldl_store_length. Qed.

Lemma prefix_arg_lookup v a k :
  length v = nparams → (k < nparams)%nat →
  prefix_arg v a !!! k = default (v !!! k) (flag_reading k a).
Proof.
  intros Hlen Hk. rewrite prefix_arg_stores.
  rewrite (foldl_store (λ j, flag_reading j a)) by (apply NoDup_seq || lia).
  rewrite decide_True; [done|]. apply elem_of_seq. lia.
Qed.

Lemma prefix_scan_length args v : length (prefix_scan args v) = length v.
Proof.
  unfold prefix_scan. generalize (drop 1 args) as l. intros l; revert v.
  induction l as [|a l IH]; intros v; cbn [foldl]; [done|].
  by rewrite IH, prefix_arg_length.
Qed.

(** After the prefix scan a slot holds the reading of the last argument
    that carries its prefix, and what it held before when there is none. *)
Lemma prefix_scan_lookup args v k :
  length v = nparams → (k < nparams)%nat →
  prefix_scan args v !!! k = default (v !!! k) (flag_value k args).
Proof.
  unfold prefix_scan, flag_value. generalize (drop 1 args) as l.
  intros l; revert v.
  induction l as [|a l IH]; intros v Hlen Hk; cbn [foldl omap list_omap]; [done|].
  rewrite IH by (rewrite ?prefix_arg_length; done).
  rewrite prefix_arg_lookup by done.
  destruct (flag_reading k a) as [y|]; [|done].
  by rewrite default_last_cons.
Qed.

Lemma positional_step_stores args v i :
  (i < length v)%nat →
  positional_step args v i = <[i := positional_reading args i]> v.
Proof.
  intros Hi. unfold positional_step, positional_reading.
  destruct (args !! (i + 1)%nat) as [a|]; [|done].
  destruct (sscanf_d a) as [x|]; [|done].
  rewrite lookup_total_insert_same by done.
  case_bool_decide; [|done]. by rewrite list_insert_insert_eq.
Qed.

Lemma positional_steps_store args (l : list nat) v :
  (∀ j, j ∈ l → (j < length v)%nat) →
  foldl (positional_step args) v l
  = foldl (λ u j, match Some (positional_reading args j) with
                  | Some x => <[j := x]> u
                  | None => u
                  end) v l.
Proof.
  revert v. induction l as [|i l IH]; intros v Hl; cbn [foldl]; [done|].
  rewrite positional_step_stores by apply Hl, list_elem_of_here.
  apply IH. intros j Hj. rewrite length_insert.
  by apply Hl, elem_of_cons; right.
Qed.

Lemma positional_scan_stores args v :
  length v = nparams →
  positional_scan args v
  = foldl (λ u j, match Some (positional_reading args j) with
                  | Some x => <[j := x]> u
                  | None => u
                  end) v (seq 0 nparams).
Proof.
  intros Hlen. apply positional_steps_store.
  intros j Hj%elem_of_seq. lia.
Qed.

Lemma positional_scan_length args v :
  length v = nparams → length (positional_scan args v) = nparams.
Proof.
  intros Hlen. rewrite positional_scan_stores by done.
  by rewrite (foldl_store_length (λ j, Some (positional_reading args j))).
Qed.

(** After the positional scan every slot of the vector holds the reading of
    the argument at its own position. *)
Lemma positional_scan_lookup args v k :
  length v = nparams → (k < nparams)%nat →
  positional_scan args v !!! k = positional_reading args k.
Proof.
  intros Hlen Hk. rewrite positional_scan_stores by done.
  rewrite (foldl_store (λ j, Some (positional_reading args j)))
    by (apply NoDup_seq || lia).
  rewrite decide_True; [done|]. apply elem_of_seq. lia.
Qed.

Lemma zero_iparams_length : length zero_iparams = nparams.
Proof. reflexivity. Qed.

Lemma parse_command_line_length args :
  length (parse_command_line args) = nparams.
Proof.
  unfold parse_command_line.
  by rewrite prefix_scan_length, positional_scan_length.
Qed.

(** The vector after both scans: a prefixed argument wins over a positional
    one for the same slot. *)
Lemma parse_command_line_lookup args k :
  (k < nparams)%nat →
  parse_command_line args !!! k
  = default (positional_reading args k) (flag_value k args).
Proof.
  intros Hk. unfold parse_command_line.
  rewrite prefix_scan_lookup by (by rewrite ?positional_scan_length).
  by rewrite positional_scan_lookup.
Qed.

End command_line.

(** C6. For each of the ten prefixes of [cparams]: an argument made of the
    prefix and a suffix overwrites the slot of that prefix with the integer
    the suffix parses to, 0 when it does not parse; after the scan of the
    whole argument list, in order, a slot holds the reading of the last
    argument that carries its prefix (and is untouched when none does); an
    argument that carries none of the prefixes changes nothing. *)
Theorem prefix_scan_last_occurrence (args : list string) (v : list Z) :
  length v = nparams →
  (∀ j s, (j < nparams)%nat →
     prefix_arg v (cparams !!! j +:+ s) !!! j = default 0 (sscanf_d s))
  ∧ (∀ j, (j < nparams)%nat →
       prefix_scan args v !!! j = default (v !!! j) (flag_value j args))
  ∧ (∀ a, (∀ j, (j < nparams)%nat → strip_prefix (cparams !!! j) a = None) →
       prefix_arg v a = v).
Proof.
  intros Hlen. split; [|split].
  - intros j s Hj. rewrite prefix_arg_lookup by done.
    unfold flag_reading.
    by rewrite (proj2 (strip_prefix_app (cparams !!! j) _ s) eq_refl).
  - intros j Hj. by apply prefix_scan_lookup.
  - intros a Hnone. rewrite prefix_arg_stores.
    assert (∀ l, (∀ j, j ∈ l → (j < nparams)%nat) →
      foldl (λ u j, match flag_reading j a with
                    | Some x => <[j := x]> u
                    | None => u
                    end) v l = v) as Hl.
    { induction l as [|j l IH]; intros Hin; cbn [foldl]; [done|].
      unfold flag_reading at 2.
      rewrite Hnone by apply Hin, list_elem_of_here. cbn.
      apply IH. intros i Hi. by apply Hin, elem_of_cons; right. }
    apply Hl. intros j Hj%elem_of_seq. lia.
Qed.

Lemma prefix_scan_last_occurrence_witness :
  length [32; 0; 0; 0; 0; 0; 0; 0; 0; 0] = nparams
  ∧ prefix_scan argv_flags [32; 0; 0; 0; 0; 0; 0; 0; 0; 0] !!! 3%nat
    = default 0 (flag_value 3 argv_flags).
Proof.
  split; [reflexivity|].
  apply (prefix_scan_last_occurrence argv_flags [32; 0; 0; 0; 0; 0; 0; 0; 0; 0]);
    [reflexivity | vm_compute; lia].
Defined.

(** ** The whole routine *)

Section routine.
Implicit Types (w : World) (f : HpcgDat) (v : list Z) (k : nat).

Lemma supply_length k o v : length (supply k o v) = length v.
Proof. destruct o; cbn [supply]; by rewrite ?length_insert. Qed.

Lemma supply_other k o v i : k ≠ i → supply k o v !!! i = v !!! i.
Proof.
  intros. destruct o; cbn [supply]; by rewrite ?lookup_total_insert_other.
Qed.

Lemma supply_same k o v :
  (k < length v)%nat → supply k o v !!! k = default (v !!! k) o.
Proof.
  intros. destruct o; cbn [supply default]; by rewrite ?lookup_total_insert_same.
Qed.

Lemma file_stage_length f v : length (file_stage f v) = length v.
Proof.
  unfold file_stage, ReadHpcgDat. destruct (no_geometry v); [|done].
  cbn [snd]. destruct (rt_pointer v); by rewrite !supply_length.
Qed.

Lemma local_vector_length args f : length (local_vector args f) = nparams.
Proof.
  unfold local_vector.
  by rewrite normalize_length, file_stage_length, parse_command_line_length.
Qed.

(** The loader is handed the geometry, the grid and, when it is wanted, the
    runtime: the z-split slots are out of its reach. *)
Lemma file_stage_split f v k :
  (4 ≤ k ≤ 6)%nat → file_stage f v !!! k = v !!! k.
Proof.
  intros Hk. unfold file_stage, ReadHpcgDat. destruct (no_geometry v); [|done].
  cbn [snd]. unfold rt_pointer. case_bool_decide;
    rewrite !supply_other by lia; done.
Qed.

(** The runtime slot after lines 95-100. *)
Lemma file_stage_runtime f v :
  length v = nparams →
  file_stage f v !!! 3%nat
  = if no_geometry v && bool_decide (v !!! 3%nat = 0)
    then default 0 (dat_rt f) else v !!! 3%nat.
Proof.
  intros Hlen. change nparams with 10%nat in Hlen.
  unfold file_stage, ReadHpcgDat. destruct (no_geometry v); [|done].
  cbn [snd andb]. unfold rt_pointer.
  destruct (decide (v !!! 3%nat = 0)) as [Hz|Hnz].
  - rewrite bool_decide_false by (intros H0; by apply H0).
    rewrite bool_decide_true by done.
    rewrite !supply_other by lia.
    rewrite supply_same by (rewrite !supply_length; lia).
    rewrite !supply_other by lia. by rewrite Hz.
  - rewrite bool_decide_true by done. rewrite bool_decide_false by done.
    by rewrite !supply_other by lia.
Qed.

(** The fields of [params] are the slots of the vector held at line 120. *)
Lemma HPCG_Init_resolved w :
  resolved (params (HPCG_Init w)) = slots (final_vector w).
Proof.
  unfold HPCG_Init, final_vector, local_vector, file_stage, parse_command_line.
  destruct (no_geometry _), (HPCG_NO_MPI (build w)); reflexivity.
Qed.

Lemma HPCG_Init_reads_file w :
  reads_file (HPCG_Init w) = no_geometry (parse_command_line (argv w)).
Proof.
  unfold HPCG_Init, reads_file, parse_command_line.
  destruct (no_geometry _), (HPCG_NO_MPI (build w)); reflexivity.
Qed.

Lemma HPCG_Init_broadcasts w :
  broadcasts (HPCG_Init w)
  = negb (HPCG_NO_MPI (build w))
    && no_geometry (parse_command_line (argv w)).
Proof.
  unfold HPCG_Init, broadcasts, parse_command_line.
  destruct (no_geometry _), (HPCG_NO_MPI (build w)); reflexivity.
Qed.

(** When the coordinating process was started the same way, every process
    ends with the vector it computed itself. *)
Lemma final_vector_local w :
  root_ran_with w (hpcg_dat w) →
  final_vector w = local_vector (argv w) (hpcg_dat w).
Proof.
  intros Hroot. unfold final_vector, MPI_Bcast.
  destruct (negb _ && _); [|done].
  case_bool_decide as Hrank; [done|]. by apply Hroot.
Qed.

(** A receiver ends with the buffer of the coordinating process, every
    other process with the vector it computed itself. *)
Lemma final_vector_cases w :
  final_vector w
  = if receives w then root_buffer w
    else local_vector (argv w) (hpcg_dat w).
Proof.
  unfold final_vector, receives, MPI_Bcast.
  destruct (negb _ && _); [|done]. cbn [andb].
  by case_bool_decide.
Qed.

Lemma receives_rank w : receives w = true → world_rank w ≠ 0.
Proof.
  unfold receives. intros [_ H]%andb_true_iff.
  by apply negb_true_iff, bool_decide_eq_false in H.
Qed.

Lemma receives_no_geometry w :
  receives w = true → no_geometry (parse_command_line (argv w)) = true.
Proof.
  unfold receives. intros [H _]%andb_true_iff.
  by apply andb_true_iff in H as [_ H].
Qed.

Lemma slots_lookup v k : (k < nparams)%nat → slots v !! k = Some (v !!! k).
Proof.
  intros Hk. unfold slots. rewrite list_lookup_fmap, lookup_seq_lt by done.
  done.
Qed.

End routine.

(** The scenarios of the specification: a file read and a broadcast when the
    command line is empty; sibling fill with neither when geometry is given. *)
Example scenario_A :
  resolved (params (HPCG_Init rank1_no_args))
  = [32; 32; 32; 60; 0; 0; 0; 1; 1; 1]
  ∧ broadcasts (HPCG_Init rank1_no_args) = true.
Proof. vm_compute. done. Qed.

Example scenario_B :
  let w := mkWorld mpi_build ["xhpcg"; "--nx=8"; "--ny=64"; "--nz=8"]%string
             dat_32_60 0 4 [] 2 t0 in
  resolved (params (HPCG_Init w)) = [64; 64; 64; 0; 0; 0; 0; 0; 0; 0]
  ∧ calls (HPCG_Init w) = [].
Proof. vm_compute. done. Qed.

(** C8. Whatever the arguments, the configuration file, the rank and the
    build, the routine returns 0: line 170 is its only return, and the value
    [ReadHpcgDat] returns is dropped at line 98. *)
Theorem HPCG_Init_returns_zero (w : World) : status (HPCG_Init w) = 0.
Proof.
  unfold HPCG_Init.
  destruct (no_geometry _), (HPCG_NO_MPI (build w)); reflexivity.
Qed.

(** C2, as stated, fails: in a build without MPI a process started without
    arguments reads the configuration file and takes part in no broadcast. *)
Lemma broadcast_iff_read_fails :
  ¬ (broadcasts (HPCG_Init serial_no_args) = true
     ↔ reads_file (HPCG_Init serial_no_args) = true).
Proof. vm_compute. intros [_ H]. by specialize (H eq_refl). Qed.

(** C2, amended. The loader is called exactly when the three geometry slots
    are all 0 after the command line is parsed; in a build with MPI the
    broadcast is performed exactly when the loader was called, and in a
    build without MPI no broadcast is ever performed. *)
Theorem read_and_broadcast_conditions (w : World) :
  (reads_file (HPCG_Init w) = true
   ↔ parse_command_line (argv w) !!! 0%nat = 0
     ∧ parse_command_line (argv w) !!! 1%nat = 0
     ∧ parse_command_line (argv w) !!! 2%nat = 0)
  ∧ broadcasts (HPCG_Init w)
    = negb (HPCG_NO_MPI (build w)) && reads_file (HPCG_Init w).
Proof.
  rewrite HPCG_Init_broadcasts, HPCG_Init_reads_file. split; [|done].
  unfold no_geometry. rewrite !andb_true_iff, !bool_decide_eq_true.
  tauto.
Qed.

(** C3, at the failing input: a process of rank 1 that was given no geometry
    calls [ReadHpcgDat]. *)
Lemma rank1_reads_file :
  comm_rank (params (HPCG_Init rank1_no_args)) = 1
  ∧ calls (HPCG_Init rank1_no_args)
    = [ReadHpcgDat_called (Some 3%nat); MPI_Bcast_called 10 0].
Proof. vm_compute. done. Qed.

(** C4, at the failing input: the fourth positional argument reaches the
    runtime slot, and ten positional arguments fill the ten slots. *)
Lemma fourth_positional_sets_runtime :
  runningTime (params (HPCG_Init four_positional)) = 45
  ∧ parse_command_line
      ["xhpcg"; "10"; "11"; "12"; "13"; "14"; "15"; "16"; "17"; "18"; "19";
       "20"]%string
    = [10; 11; 12; 13; 14; 15; 16; 17; 18; 19].
Proof. vm_compute. done. Qed.

(** C5, as stated, fails: with [--rt=0] and no geometry the resolved runtime
    is the one of the configuration file, not the 0 of the command line. *)
Lemma rt_zero_flag_overridden :
  ¬ (∀ x, flag_value 3 (argv rt_zero) = Some x →
          runningTime (params (HPCG_Init rt_zero)) = x).
Proof. intros H. specialize (H 0 eq_refl). vm_compute in H. done. Qed.

(** C5, amended. On a process that keeps its own vector: if the last
    [--rt=] argument parses to a non-zero integer, the loader is handed a
    null runtime pointer and the resolved runtime is that integer whatever
    the configuration file holds; a [--rt=] that reads 0 (also because its
    suffix does not parse) counts as absent, and so does no [--rt=] at all
    when the fourth argument is not taken for a positional integer: the
    loader is handed the runtime slot, and the resolved runtime is the one
    the loader supplies when no geometry was given (0 when it supplies
    none), and 0 when geometry was given.  A process that receives the
    broadcast resolves the runtime slot of the buffer of the coordinating
    process; when that process was started with the same command line, the
    same rule gives it with the file of the coordinating process. *)
Theorem runningTime_precedence (w : World) :
  (receives w = true →
   runningTime (params (HPCG_Init w)) = root_buffer w !!! 3%nat)
  ∧ (∀ x, flag_value 3 (argv w) = Some x → x ≠ 0 →
          rt_pointer (parse_command_line (argv w)) = None
          ∧ (receives w = false → runningTime (params (HPCG_Init w)) = x))
  ∧ (flag_value 3 (argv w) = Some 0
     ∨ flag_value 3 (argv w) = None ∧ positional_reading (argv w) 3 = 0 →
     rt_pointer (parse_command_line (argv w)) = Some 3%nat
     ∧ (receives w = false →
        runningTime (params (HPCG_Init w))
        = if no_geometry (parse_command_line (argv w))
          then default 0 (dat_rt (hpcg_dat w)) else 0))
  ∧ (∀ f0, root_ran_with w f0 → receives w = true →
       (∀ x, flag_value 3 (argv w) = Some x → x ≠ 0 →
             runningTime (params (HPCG_Init w)) = x)
       ∧ (flag_value 3 (argv w) = Some 0
          ∨ flag_value 3 (argv w) = None
            ∧ positional_reading (argv w) 3 = 0 →
          runningTime (params (HPCG_Init w)) = default 0 (dat_rt f0))).
Proof.
  assert (Hrt : ∀ f, local_vector (argv w) f !!! 3%nat
                = file_stage f (parse_command_line (argv w)) !!! 3%nat).
  { intros f. unfold local_vector. by rewrite normalize_other. }
  assert (Hfield : runningTime (params (HPCG_Init w)) = final_vector w !!! 3%nat).
  { pose proof (HPCG_Init_resolved w) as Hres.
    apply (f_equal (λ l, l !! 3%nat)) in Hres.
    rewrite slots_lookup in Hres by (unfold nparams; cbn; lia).
    cbn in Hres. congruence. }
  assert (Hcli : parse_command_line (argv w) !!! 3%nat
                 = default (positional_reading (argv w) 3)
                     (flag_value 3 (argv w))).
  { apply parse_command_line_lookup. unfold nparams; cbn; lia. }
  assert (Hzero : flag_value 3 (argv w) = Some 0
                  ∨ flag_value 3 (argv w) = None
                    ∧ positional_reading (argv w) 3 = 0 →
                  parse_command_line (argv w) !!! 3%nat = 0).
  { intros [Hflag | [Hflag Hpos]]; rewrite Hcli, Hflag; [done|]. by cbn. }
  rewrite Hfield, final_vector_cases. split; [|split; [|split]].
  - by intros ->.
  - intros x Hflag Hx. rewrite Hflag in Hcli. cbn in Hcli. split.
    + unfold rt_pointer. by rewrite Hcli, bool_decide_true by done.
    + intros ->. rewrite Hrt.
      rewrite file_stage_runtime by apply parse_command_line_length.
      rewrite Hcli, (bool_decide_false (x = 0)) by done.
      by rewrite andb_false_r.
  - intros Habsent. specialize (Hzero Habsent). split.
    + unfold rt_pointer. rewrite Hzero.
      by rewrite bool_decide_false by (intros H; by apply H).
    + intros ->. rewrite Hrt.
      rewrite file_stage_runtime by apply parse_command_line_length.
      rewrite Hzero, bool_decide_true by done.
      by destruct (no_geometry _).
  - intros f0 Hroot Hrecv. rewrite Hrecv.
    rewrite (Hroot (receives_rank w Hrecv)), Hrt.
    rewrite file_stage_runtime by apply parse_command_line_length.
    rewrite (receives_no_geometry w Hrecv). split.
    + intros x Hflag Hx. rewrite Hflag in Hcli. cbn in Hcli.
      by rewrite Hcli, (bool_decide_false (x = 0)) by done.
    + intros Habsent. by rewrite (Hzero Habsent), bool_decide_true by done.
Qed.

Lemma runningTime_precedence_witness :
  (receives rt_unparsable = false
   ∧ flag_value 3 (argv rt_unparsable) = Some 0
   ∧ runningTime (params (HPCG_Init rt_unparsable)) = 60)
  ∧ (receives rank1_rt45 = true ∧ root_ran_with rank1_rt45 dat_32_60
     ∧ runningTime (params (HPCG_Init rank1_rt45)) = 45)
  ∧ (receives rank1_own_rt90 = true ∧ root_ran_with rank1_own_rt90 dat_32_60
     ∧ runningTime (params (HPCG_Init rank1_own_rt90)) = 60).
Proof.
  assert (H1 : root_ran_with rank1_rt45 dat_32_60) by (intros _; reflexivity).
  assert (H2 : root_ran_with rank1_own_rt90 dat_32_60)
    by (intros _; reflexivity).
  split; [|split].
  - split; [reflexivity|]. split; [reflexivity|].
    exact (proj2 (proj1 (proj2 (proj2 (runningTime_precedence rt_unparsable)))
                    (or_introl eq_refl)) eq_refl).
  - split; [reflexivity|]. split; [exact H1|].
    refine (proj1 (proj2 (proj2 (proj2 (runningTime_precedence rank1_rt45)))
                     dat_32_60 H1 eq_refl) 45 eq_refl _). lia.
  - split; [reflexivity|]. split; [exact H2|].
    exact (proj2 (proj2 (proj2 (proj2 (runningTime_precedence rank1_own_rt90)))
                    dat_32_60 H2 eq_refl) (or_intror (conj eq_refl eq_refl))).
Defined.

(** C7. Two calls that are given the same argument list and find the same
    content in the configuration file (the coordinating process included)
    resolve the same nx, ny, nz, runningTime, pz, zl, zu, npx, npy and npz,
    whatever their ranks, group sizes, thread counts, clocks and builds. *)
Theorem resolution_deterministic (w1 w2 : World) :
  argv w1 = argv w2 → hpcg_dat w1 = hpcg_dat w2 →
  root_ran_with w1 (hpcg_dat w1) → root_ran_with w2 (hpcg_dat w2) →
  resolved (params (HPCG_Init w1)) = resolved (params (HPCG_Init w2)).
Proof.
  intros Hargs Hdat Hroot1 Hroot2.
  rewrite !HPCG_Init_resolved, !final_vector_local by done.
  by rewrite Hargs, Hdat.
Qed.

Lemma resolution_deterministic_witness :
  argv rank1_no_args = argv serial_no_args
  ∧ hpcg_dat rank1_no_args = hpcg_dat serial_no_args
  ∧ root_ran_with rank1_no_args (hpcg_dat rank1_no_args)
  ∧ root_ran_with serial_no_args (hpcg_dat serial_no_args)
  ∧ resolved (params (HPCG_Init rank1_no_args))
    = resolved (params (HPCG_Init serial_no_args)).
Proof.
  assert (H1 : root_ran_with rank1_no_args (hpcg_dat rank1_no_args))
    by (intros _; reflexivity).
  assert (H2 : root_ran_with serial_no_args (hpcg_dat serial_no_args))
    by (intros H; destruct H; reflexivity).
  split; [reflexivity|]. split; [reflexivity|].
  split; [exact H1|]. split; [exact H2|].
  exact (resolution_deterministic rank1_no_args serial_no_args
           eq_refl eq_refl H1 H2).
Defined.

(** C10, as stated, fails: a process of rank 1 that was given no geometry
    finds a runtime of 90 in its own configuration file, and resolves the
    60 the coordinating process found in its own. *)
Lemma receiver_drops_own_runtime :
  root_ran_with rank1_own_rt90 dat_32_60
  ∧ ¬ (resolved (params (HPCG_Init rank1_own_rt90)) !! 3%nat
       = file_stage (hpcg_dat rank1_own_rt90)
           (parse_command_line (argv rank1_own_rt90)) !! 3%nat).
Proof. split; [intros _; reflexivity|]. vm_compute. discriminate. Qed.

(** C10, amended. On a process that keeps its own vector the seven fields
    runningTime, pz, zl, zu, npx, npy, npz are the slots 3 to 9 of the
    vector as its last parsing stage (command line, then file when it is
    read) left it; on a process that receives the broadcast they are the
    slots 3 to 9 of the buffer of the coordinating process, which are those
    of the last parsing stage of that process when it was started with the
    same command line.  Nothing checks or floors them on the way: when
    geometry is on the command line, the integer of the last prefixed
    argument for such a slot, negative or not, is the value of the field. *)
Theorem non_geometry_unvalidated (w : World) (k : nat) :
  (3 ≤ k < nparams)%nat →
  resolved (params (HPCG_Init w)) !! k
  = (if receives w then Some (root_buffer w !!! k)
     else file_stage (hpcg_dat w) (parse_command_line (argv w)) !! k)
  ∧ (∀ f0, root_ran_with w f0 → receives w = true →
       resolved (params (HPCG_Init w)) !! k
       = file_stage f0 (parse_command_line (argv w)) !! k)
  ∧ (∀ x, no_geometry (parse_command_line (argv w)) = false →
          flag_value k (argv w) = Some x →
          resolved (params (HPCG_Init w)) !! k = Some x).
Proof.
  intros Hk.
  assert (Hlocal : ∀ f, local_vector (argv w) f !! k
            = file_stage f (parse_command_line (argv w)) !! k).
  { intros f. unfold local_vector.
    rewrite !list_lookup_lookup_total_lt
      by (rewrite ?normalize_length, file_stage_length,
            parse_command_line_length; lia).
    by rewrite normalize_other by lia. }
  assert (Hres : resolved (params (HPCG_Init w)) !! k
          = if receives w then Some (root_buffer w !!! k)
            else file_stage (hpcg_dat w) (parse_command_line (argv w)) !! k).
  { rewrite HPCG_Init_resolved, final_vector_cases.
    destruct (receives w); [apply slots_lookup; lia|].
    rewrite slots_id by apply local_vector_length. apply Hlocal. }
  split; [done|]. split.
  - intros f0 Hroot Hrecv. rewrite Hres, Hrecv.
    rewrite (Hroot (receives_rank w Hrecv)), <- Hlocal.
    symmetry. apply list_lookup_lookup_total_lt.
    rewrite local_vector_length. lia.
  - intros x Hgeo Hflag. rewrite Hres.
    unfold receives. rewrite Hgeo, andb_false_r. cbn [andb].
    unfold file_stage. rewrite Hgeo.
    rewrite list_lookup_lookup_total_lt
      by (rewrite parse_command_line_length; lia).
    rewrite parse_command_line_lookup by lia. by rewrite Hflag.
Qed.

Lemma non_geometry_unvalidated_witness :
  (3 ≤ 4 < nparams)%nat
  ∧ pz (params (HPCG_Init negative_pz)) = -5.
Proof.
  assert (H : (3 ≤ 4 < nparams)%nat) by (vm_compute; lia).
  split; [exact H|].
  apply (inj Some).
  exact (proj2 (proj2 (non_geometry_unvalidated negative_pz 4 H)) (-5)
           eq_refl eq_refl).
Defined.

(** ** Further properties of the normaliser *)

Section normaliser_more.
Implicit Types (v : list Z) (i k : nat).

(** An iteration of the outer loop on a dimension that is already 16 or
    more changes nothing. *)
Lemma normalize_dim_large v i : 16 ≤ v !!! i → normalize_dim v i = v.
Proof.
  intros Hi. unfold normalize_dim.
  rewrite (bool_decide_false (v !!! i < 16)) by lia.
  by rewrite bool_decide_false by lia.
Qed.

(** What one iteration leaves in its own slot. *)
Lemma normalize_dim_value v i :
  (i < 3)%nat → (3 ≤ length v)%nat →
  normalize_dim v i !!! i
  = if bool_decide (v !!! i < 16)
    then 16 `max` (v !!! ((i + 1) mod 3)%nat `max` v !!! ((i + 2) mod 3)%nat)
    else v !!! i.
Proof.
  intros Hi Hlen. rewrite normalize_dim_refines by done.
  unfold spec_normalize_dim.
  repeat case_bool_decide;
    rewrite ?lookup_total_insert_same in * by (rewrite ?length_insert; lia);
    lia.
Qed.

(** After the pass the three geometry slots are at least 16. *)
Lemma normalize_floor v i :
  (3 ≤ length v)%nat → (i < 3)%nat → 16 ≤ normalize v !!! i.
Proof.
  intros Hlen Hi. rewrite normalize_unfold.
  destruct i as [|[|[|i]]]; try lia.
  - rewrite !normalize_dim_other by lia. apply normalize_dim_floor. lia.
  - rewrite normalize_dim_other by lia.
    apply normalize_dim_floor. rewrite normalize_dim_length. lia.
  - apply normalize_dim_floor. rewrite !normalize_dim_length. lia.
Qed.

End normaliser_more.

(** X5. A dimension that is at least 16 is kept; a dimension below 16 becomes
    the largest of 16 and the three dimensions as they were before the pass:
    the order in which the loop takes the dimensions does not show in the
    result. *)
Theorem normalize_closed_form (v : list Z) (i : nat) :
  length v = nparams → (i < 3)%nat →
  normalize v !!! i
  = if bool_decide (v !!! i < 16)
    then 16 `max` (v !!! 0%nat `max` (v !!! 1%nat `max` v !!! 2%nat))
    else v !!! i.
Proof.
  intros Hlen Hi. change nparams with 10%nat in Hlen.
  rewrite normalize_unfold.
  pose proof (normalize_dim_value v 0) as H0.
  pose proof (normalize_dim_value (normalize_dim v 0) 1) as H1.
  pose proof (normalize_dim_value (normalize_dim (normalize_dim v 0) 1) 2) as H2.
  rewrite ?normalize_dim_length in *.
  specialize (H0 ltac:(lia) ltac:(lia)).
  specialize (H1 ltac:(lia) ltac:(lia)).
  specialize (H2 ltac:(lia) ltac:(lia)).
  cbn [Nat.add Nat.modulo Nat.divmod snd fst Nat.sub] in H0, H1, H2.
  assert (E01 : normalize_dim v 0 !!! 1%nat = v !!! 1%nat)
    by (by apply normalize_dim_other).
  assert (E02 : normalize_dim v 0 !!! 2%nat = v !!! 2%nat)
    by (by apply normalize_dim_other).
  assert (E10 : normalize_dim (normalize_dim v 0) 1 !!! 0%nat
                = normalize_dim v 0 !!! 0%nat)
    by (by apply normalize_dim_other).
  assert (E12 : normalize_dim (normalize_dim v 0) 1 !!! 2%nat = v !!! 2%nat)
    by (by rewrite normalize_dim_other).
  rewrite E01, E02 in H1. rewrite E10, E12 in H2. clear E01 E02 E10 E12.
  assert (Hgoal : normalize_dim (normalize_dim (normalize_dim v 0) 1) 2 !!! i
    = match i with
      | 0%nat => normalize_dim v 0 !!! 0%nat
      | 1%nat => normalize_dim (normalize_dim v 0) 1 !!! 1%nat
      | _ => normalize_dim (normalize_dim (normalize_dim v 0) 1) 2 !!! 2%nat
      end).
  { destruct i as [|[|[|i]]]; try lia; try done;
      by rewrite !normalize_dim_other by lia. }
  rewrite Hgoal. clear Hgoal.
  set (a := v !!! 0%nat) in *. set (b := v !!! 1%nat) in *.
  set (c := v !!! 2%nat) in *.
  destruct (decide (a < 16)), (decide (b < 16)), (decide (c < 16));
    repeat first
      [ rewrite (bool_decide_true (_ < 16)) in H0 by done
      | rewrite (bool_decide_false (_ < 16)) in H0 by done
      | rewrite (bool_decide_true (_ < 16)) in H1 by done
      | rewrite (bool_decide_false (_ < 16)) in H1 by done
      | rewrite (bool_decide_true (_ < 16)) in H2 by done
      | rewrite (bool_decide_false (_ < 16)) in H2 by done ];
    destruct i as [|[|[|i]]]; try lia; subst a b c;
    repeat first [ rewrite (bool_decide_true (_ < 16)) by done
                 | rewrite (bool_decide_false (_ < 16)) by done ];
    lia.
Qed.

Lemma normalize_closed_form_witness :
  length [8; 64; 8; 0; 0; 0; 0; 0; 0; 0] = nparams ∧ (2 < 3)%nat
  ∧ normalize [8; 64; 8; 0; 0; 0; 0; 0; 0; 0] !!! 2%nat = 64.
Proof.
  split; [reflexivity|]. split; [lia|].
  apply (normalize_closed_form [8; 64; 8; 0; 0; 0; 0; 0; 0; 0] 2);
    [reflexivity | lia].
Defined.

(** X6. Geometry that is already at least 16 on every axis goes through the
    pass unchanged, whatever the rest of the vector holds. *)
Theorem normalize_large_unchanged (v : list Z) :
  16 ≤ v !!! 0%nat → 16 ≤ v !!! 1%nat → 16 ≤ v !!! 2%nat → normalize v = v.
Proof.
  intros H0 H1 H2. rewrite normalize_unfold.
  rewrite (normalize_dim_large v 0) by done.
  rewrite (normalize_dim_large v 1) by done.
  by rewrite (normalize_dim_large v 2).
Qed.

Lemma normalize_large_unchanged_witness :
  normalize [100; 16; 32; 30; 0; 0; 0; 2; 2; 2]
  = [100; 16; 32; 30; 0; 0; 0; 2; 2; 2].
Proof.
  apply (normalize_large_unchanged [100; 16; 32; 30; 0; 0; 0; 2; 2; 2]);
    vm_compute; discriminate.
Defined.

(** X7. Running the pass a second time changes nothing. *)
Theorem normalize_idempotent (v : list Z) :
  length v = nparams → normalize (normalize v) = normalize v.
Proof.
  intros Hlen. change nparams with 10%nat in Hlen.
  rewrite (normalize_unfold (normalize v)).
  rewrite (normalize_dim_large (normalize v) 0)
    by (apply normalize_floor; lia).
  rewrite (normalize_dim_large (normalize v) 1)
    by (apply normalize_floor; lia).
  rewrite (normalize_dim_large (normalize v) 2)
    by (apply normalize_floor; lia).
  done.
Qed.

Lemma normalize_idempotent_witness :
  normalize (normalize [0; 7; 20; 0; 0; 0; 0; 0; 0; 0])
  = normalize [0; 7; 20; 0; 0; 0; 0; 0; 0; 0].
Proof. apply (normalize_idempotent [0; 7; 20; 0; 0; 0; 0; 0; 0; 0]). reflexivity. Defined.

(** ** Further properties of the command-line scans *)

Section command_line_more.
Implicit Types (v : list Z) (args : list string) (p q a s : string) (j k : nat).

(** Two prefixes of one string: one of them is a prefix of the other. *)
Lemma strip_prefix_comparable p q a s s' :
  strip_prefix p a = Some s → strip_prefix q a = Some s' →
  is_Some (strip_prefix p q) ∨ is_Some (strip_prefix q p).
Proof.
  revert q a. induction p as [|c p IH]; intros q a; [by left; eexists|].
  destruct q as [|d q]; [by right; eexists|].
  destruct a as [|e a]; cbn [strip_prefix]; [done|].
  destruct (Ascii.eqb_spec c e) as [->|?]; [|done].
  destruct (Ascii.eqb_spec d e) as [->|?]; [|done].
  rewrite Ascii.eqb_refl. apply IH.
Qed.

(** None of the ten prefixes of line 72 begins with another one. *)
Lemma cparams_exclusive j k :
  (j < nparams)%nat → (k < nparams)%nat → j ≠ k →
  strip_prefix (cparams !!! j) (cparams !!! k) = None.
Proof.
  intros Hj Hk Hne. change nparams with 10%nat in *.
  do 10 (destruct j as [|j];
         [do 10 (destruct k as [|k]; [first [congruence | reflexivity]|]); lia|]).
  lia.
Qed.

Lemma flag_reading_exclusive a j k x :
  (j < nparams)%nat → (k < nparams)%nat → j ≠ k →
  flag_reading j a = Some x → flag_reading k a = None.
Proof.
  intros Hj Hk Hne. unfold flag_reading.
  destruct (strip_prefix (cparams !!! j) a) as [s|] eqn:Hs; [|done].
  destruct (strip_prefix (cparams !!! k) a) as [s'|] eqn:Hs'; [|done].
  intros _.
  destruct (strip_prefix_comparable _ _ _ _ _ Hs Hs') as [[? H]|[? H]];
    by rewrite cparams_exclusive in H.
Qed.

Lemma prefix_arg_lookup_option v a k :
  length v = nparams →
  prefix_arg v a !! k
  = (λ x, default x (flag_reading k a)) <$> v !! k.
Proof.
  intros Hlen. destruct (decide (k < nparams)%nat) as [Hk|Hk].
  - rewrite !list_lookup_lookup_total_lt by (rewrite ?prefix_arg_length; lia).
    by rewrite prefix_arg_lookup by done.
  - by rewrite !(proj2 (lookup_ge_None _ _)) by (rewrite ?prefix_arg_length; lia).
Qed.

End command_line_more.

(** X1. [startswith] returns 1 exactly when its first argument is the prefix
    followed by something (possibly nothing), and 0 otherwise. *)
Theorem startswith_prefix (s p : string) :
  nul_free p = true →
  (startswith s p = 1 ↔ ∃ t, s = (p +:+ t)%string)
  ∧ (startswith s p = 0 ↔ ¬ ∃ t, s = (p +:+ t)%string).
Proof.
  intros Hp. unfold startswith.
  pose proof (strncmp_strip_prefix p s Hp) as Hcmp.
  assert (is_Some (strip_prefix p s) ↔ ∃ t, s = (p +:+ t)%string) as Hsome.
  { split.
    - intros [t Ht]. exists t. by apply strip_prefix_app.
    - intros [t Ht]. exists t. by apply strip_prefix_app. }
  rewrite <- Hsome, <- Hcmp. case_bool_decide; split; split; try done; lia.
Qed.

Lemma startswith_prefix_witness :
  nul_free "--nx=" = true
  ∧ (startswith "--nx=104" "--nx=" = 1 ↔ ∃ t, "--nx=104"%string = ("--nx=" +:+ t)%string).
Proof.
  split; [reflexivity|].
  apply (startswith_prefix "--nx=104" "--nx="). reflexivity.
Defined.

(** X2. One argument changes at most one slot: either it leaves the vector as
    it is, or it carries exactly one of the ten prefixes and the vector
    differs in the slot of that prefix only. *)
Theorem prefix_arg_one_slot (v : list Z) (a : string) :
  length v = nparams →
  prefix_arg v a = v
  ∨ ∃ j x, (j < nparams)%nat ∧ flag_reading j a = Some x
           ∧ prefix_arg v a = <[j := x]> v.
Proof.
  intros Hlen.
  destruct (decide (Exists (λ j, is_Some (flag_reading j a)) (seq 0 nparams)))
    as [Hex|Hno].
  - right. apply Exists_exists in Hex as (j & Hj%elem_of_seq & [x Hx]).
    exists j, x. split; [lia|]. split; [done|].
    apply list_eq. intros k. rewrite prefix_arg_lookup_option by done.
    destruct (decide (k = j)) as [->|Hne].
    + rewrite list_lookup_insert_eq by lia.
      rewrite list_lookup_lookup_total_lt by lia. cbn. by rewrite Hx.
    + rewrite list_lookup_insert_ne by done.
      destruct (v !! k) as [y|] eqn:Hy; [|done]. cbn.
      apply lookup_lt_Some in Hy.
      by rewrite (flag_reading_exclusive a j k x) by (done || lia).
  - left. apply list_eq. intros k. rewrite prefix_arg_lookup_option by done.
    destruct (v !! k) as [y|] eqn:Hy; [|done]. cbn.
    apply lookup_lt_Some in Hy.
    destruct (flag_reading k a) as [x|] eqn:Hx; [|done].
    destruct Hno. apply Exists_exists. exists k. split; [|by eexists].
    apply elem_of_seq. lia.
Qed.

Lemma prefix_arg_one_slot_witness :
  length [32; 0; 0; 0; 0; 0; 0; 0; 0; 0] = nparams
  ∧ (prefix_arg [32; 0; 0; 0; 0; 0; 0; 0; 0; 0] "--npx=4"
     = [32; 0; 0; 0; 0; 0; 0; 0; 0; 0]
     ∨ ∃ j x, (j < nparams)%nat ∧ flag_reading j "--npx=4" = Some x
              ∧ prefix_arg [32; 0; 0; 0; 0; 0; 0; 0; 0; 0] "--npx=4"
                = <[j := x]> [32; 0; 0; 0; 0; 0; 0; 0; 0; 0]).
Proof.
  split; [reflexivity|].
  apply (prefix_arg_one_slot [32; 0; 0; 0; 0; 0; 0; 0; 0; 0] "--npx=4").
  reflexivity.
Defined.

(** X3. For each geometry slot a prefixed argument, wherever it stands, wins
    over the positional argument: the slot holds the reading of the last
    argument with its prefix, and only without one the integer of at least
    10 found at its position (0 when there is none). *)
Theorem geometry_flag_over_positional (args : list string) (k : nat) :
  (k < 3)%nat →
  parse_command_line args !!! k
  = match flag_value k args with
    | Some x => x
    | None => positional_reading args k
    end.
Proof.
  intros Hk. rewrite parse_command_line_lookup
    by (change nparams with 10%nat; lia).
  by destruct (flag_value k args).
Qed.

Lemma geometry_flag_over_positional_witness :
  (0 < 3)%nat
  ∧ parse_command_line ["xhpcg"; "104"; "--nx=8"; "--nx=24"]%string !!! 0%nat
    = 24.
Proof.
  split; [lia|].
  apply (geometry_flag_over_positional
           ["xhpcg"; "104"; "--nx=8"; "--nx=24"]%string 0). lia.
Defined.

(** X4. The program name is never looked at: two command lines that differ in
    [argv[0]] only give the same vector. *)
Theorem program_name_ignored (prog prog' : string) (rest : list string) :
  parse_command_line (prog :: rest) = parse_command_line (prog' :: rest).
Proof.
  apply list_eq. intros k.
  destruct (decide (k < nparams)%nat) as [Hk|Hk].
  - rewrite !list_lookup_lookup_total_lt
      by (rewrite parse_command_line_length; lia).
    rewrite !parse_command_line_lookup by done.
    unfold positional_reading, flag_value.
    by rewrite !Nat.add_1_r.
  - by rewrite !(proj2 (lookup_ge_None _ _))
      by (rewrite parse_command_line_length; lia).
Qed.

(** ** Further properties of the whole routine *)

(** X8. On every process that receives what the coordinating process computed
    from the same command line, the resolved nx, ny and nz are at least
    16, whatever the command line and the configuration files hold. *)
Theorem resolved_geometry_floor (w : World) (f0 : HpcgDat) :
  root_ran_with w f0 →
  16 ≤ nx (params (HPCG_Init w)) ∧ 16 ≤ ny (params (HPCG_Init w))
  ∧ 16 ≤ nz (params (HPCG_Init w)).
Proof.
  intros Hroot.
  assert (Hfinal : ∃ f, final_vector w = local_vector (argv w) f).
  { unfold final_vector, MPI_Bcast. destruct (negb _ && _); [|by eexists].
    case_bool_decide; [by eexists|]. exists f0. by apply Hroot. }
  destruct Hfinal as [f Hf].
  pose proof (HPCG_Init_resolved w) as Hres. rewrite Hf in Hres.
  rewrite slots_id in Hres by apply local_vector_length.
  assert (Hfloor : ∀ i, (i < 3)%nat → 16 ≤ local_vector (argv w) f !!! i).
  { intros i Hi. unfold local_vector. apply normalize_floor; [|done].
    rewrite file_stage_length, parse_command_line_length.
    change nparams with 10%nat. lia. }
  rewrite <- Hres in Hfloor.
  split; [apply (Hfloor 0%nat); lia|].
  split; [apply (Hfloor 1%nat); lia | apply (Hfloor 2%nat); lia].
Qed.

Lemma resolved_geometry_floor_witness :
  root_ran_with negative_pz no_file
  ∧ 16 ≤ nx (params (HPCG_Init negative_pz))
  ∧ 16 ≤ ny (params (HPCG_Init negative_pz))
  ∧ 16 ≤ nz (params (HPCG_Init negative_pz)).
Proof.
  assert (H : root_ran_with negative_pz no_file) by (intros _; reflexivity).
  split; [exact H|].
  exact (resolved_geometry_floor negative_pz no_file H).
Defined.

(** X9. When the command line leaves a non-zero geometry slot, the call makes
    no outside call and its ten resolved fields are the normalised
    command-line vector: the configuration file, the rank, the buffer of
    the coordinating process and the build have no influence. *)
Theorem command_line_geometry_decides (w : World) :
  no_geometry (parse_command_line (argv w)) = false →
  calls (HPCG_Init w) = []
  ∧ resolved (params (HPCG_Init w))
    = normalize (parse_command_line (argv w)).
Proof.
  intros Hgeo. split.
  - unfold HPCG_Init. fold (parse_command_line (argv w)). rewrite Hgeo.
    by rewrite andb_false_r.
  - rewrite HPCG_Init_resolved. unfold final_vector, local_vector, file_stage.
    rewrite Hgeo, andb_false_r.
    apply slots_id.
    by rewrite normalize_length, parse_command_line_length.
Qed.

Lemma command_line_geometry_decides_witness :
  no_geometry (parse_command_line (argv negative_pz)) = false
  ∧ calls (HPCG_Init negative_pz) = []
  ∧ resolved (params (HPCG_Init negative_pz))
    = normalize (parse_command_line (argv negative_pz)).
Proof.
  split; [reflexivity|].
  apply (command_line_geometry_decides negative_pz). reflexivity.
Defined.

(** X10. In a build with MPI, a process of non-zero rank that was given no
    geometry ends with the buffer of the coordinating process in its ten
    fields: what it read from its own configuration file is overwritten,
    and the received values are not normalised again. *)
Theorem receiver_takes_root_buffer (w : World) :
  HPCG_NO_MPI (build w) = false → world_rank w ≠ 0 →
  no_geometry (parse_command_line (argv w)) = true →
  resolved (params (HPCG_Init w)) = slots (root_buffer w).
Proof.
  intros Hmpi Hrank Hgeo. rewrite HPCG_Init_resolved.
  unfold final_vector, MPI_Bcast. rewrite Hmpi, Hgeo. cbn [negb andb].
  by rewrite bool_decide_false.
Qed.

Lemma receiver_takes_root_buffer_witness :
  HPCG_NO_MPI (build rank1_no_args) = false
  ∧ world_rank rank1_no_args ≠ 0
  ∧ no_geometry (parse_command_line (argv rank1_no_args)) = true
  ∧ resolved (params (HPCG_Init rank1_no_args))
    = slots (root_buffer rank1_no_args).
Proof.
  assert (H : world_rank rank1_no_args ≠ 0) by (vm_compute; discriminate).
  split; [reflexivity|]. split; [exact H|]. split; [reflexivity|].
  exact (receiver_takes_root_buffer rank1_no_args eq_refl H eq_refl).
Defined.

(** ** Decimal numerals *)

Section decimal.
Implicit Types (x : N) (z : Z) (s t : string) (n k : nat).

Lemma String_length_app s t :
  String.length (s +:+ t) = (String.length s + String.length t)%nat.
Proof.
  induction s as [|c s IH]; [done|].
  rewrite append_String. cbn [String.length]. by rewrite IH.
Qed.

Lemma String_app_inv_tail s1 s2 t : (s1 +:+ t = s2 +:+ t)%string → s1 = s2.
Proof.
  revert s2. induction s1 as [|c s1 IH]; intros [|d s2] Heq; [done|..].
  - apply (f_equal String.length) in Heq.
    rewrite append_empty, append_String in Heq. cbn [String.length] in Heq.
    rewrite String_length_app in Heq. lia.
  - apply (f_equal String.length) in Heq.
    rewrite append_empty, append_String in Heq. cbn [String.length] in Heq.
    rewrite String_length_app in Heq. lia.
  - rewrite !append_String in Heq. injection Heq as -> Heq.
    f_equal. by apply IH.
Qed.

Lemma zeros_length n :
  String.length (String.concat "" (replicate n "0"%string)) = n.
Proof.
  induction n as [|n IH]; [done|].
  cbn [replicate]. destruct n as [|n]; [done|].
  cbn [replicate String.concat] in *.
  rewrite append_String, append_empty, append_empty.
  cbn [String.length]. by rewrite IH.
Qed.

Lemma digit_value_pretty_char x :
  (x < 10)%N → digit_value (pretty_N_char x) = Some (Z.of_N x).
Proof.
  intros Hx. destruct x as [|p]; [reflexivity|].
  do 4 (try (destruct p as [p|p|]; try reflexivity)); lia.
Qed.

(** The numeral [pretty_N_go x s] is a run of [n] digits put before [s]:
    [n] is the number of decimal digits of [x], and reading the digits
    back continues the accumulator with them. *)
Lemma pretty_N_go_digits x :
  ∃ n, Z.of_N x < 10 ^ Z.of_nat n
       ∧ ((0 < x)%N → 10 ^ Z.of_nat n ≤ 10 * Z.of_N x)
       ∧ ∀ s, String.length (pretty_N_go x s) = (n + String.length s)%nat
              ∧ (∀ acc, digits_value (pretty_N_go x s) acc
                        = digits_value s (acc * 10 ^ Z.of_nat n + Z.of_N x))
              ∧ ((0 < x)%N → starts_with_digit (pretty_N_go x s) = true).
Proof.
  induction (N.lt_wf_0 x) as [x _ IH].
  destruct (decide (x = 0)%N) as [->|Hx].
  - exists 0%nat. split; [done|]. split; [lia|]. intros s.
    rewrite pretty_N_go_0. split; [done|]. split; [|lia].
    intros acc. f_equal. cbn. lia.
  - assert (0 < x)%N as Hpos by lia.
    destruct (IH (x `div` 10)%N) as (n & Hub & Hlb & Hs);
      [by apply N.div_lt|].
    pose proof (N.div_mod x 10 ltac:(done)) as Hdm.
    pose proof (N.mod_lt x 10 ltac:(done)) as Hr.
    set (q := (x `div` 10)%N) in *. set (r := (x `mod` 10)%N) in *.
    assert (Hpow : 10 ^ Z.of_nat (S n) = 10 * 10 ^ Z.of_nat n)
      by (rewrite Nat2Z.inj_succ, Z.pow_succ_r by lia; done).
    exists (S n). rewrite Hpow. split; [lia|]. split.
    + intros _. destruct (decide (q = 0)%N) as [Hq|Hq].
      * destruct (Hs ""%string) as (Hlen & _ & _).
        rewrite Hq, pretty_N_go_0 in Hlen. cbn in Hlen.
        assert (n = 0)%nat as -> by lia. cbn. lia.
      * specialize (Hlb ltac:(lia)). lia.
    + intros s. rewrite pretty_N_go_step by done. fold q r.
      destruct (Hs (String (pretty_N_char r) s)) as (Hlen & Hdig & Hstart).
      split; [rewrite Hlen; cbn [String.length]; lia|]. split.
      * intros acc. rewrite Hdig. cbn [digits_value].
        rewrite digit_value_pretty_char by done. f_equal. lia.
      * intros _. destruct (decide (q = 0)%N) as [Hq|Hq].
        -- rewrite Hq, pretty_N_go_0. cbn [starts_with_digit].
           rewrite digit_value_pretty_char by done.
           apply bool_decide_eq_true. by eexists.
        -- apply Hstart. lia.
Qed.

Lemma pretty_N_length x k :
  (1 ≤ k)%nat → Z.of_N x < 10 ^ Z.of_nat k →
  (1 ≤ String.length (pretty x) ≤ k)%nat.
Proof.
  intros Hk Hx. unfold pretty, pretty_N. case_decide as H0; [cbn; lia|].
  destruct (pretty_N_go_digits x) as (n & Hub & Hlb & Hs).
  destruct (Hs ""%string) as (-> & _ & _). cbn [String.length].
  specialize (Hlb ltac:(lia)).
  assert (10 ^ Z.of_nat n < 10 ^ Z.of_nat (S k)) as Hlt.
  { rewrite (Nat2Z.inj_succ k), Z.pow_succ_r by lia. lia. }
  apply Z.pow_lt_mono_r_iff in Hlt; [|lia..].
  destruct n as [|n]; [cbn in Hub; lia|]. lia.
Qed.

Lemma to_int_in_range z :
  INT_MIN ≤ z ≤ INT_MAX → to_int (strtol_clamp z) = z.
Proof.
  unfold INT_MIN, INT_MAX, to_int, strtol_clamp, LONG_MIN, LONG_MAX.
  intros Hz. rewrite Z.max_r, Z.min_r by lia.
  rewrite Z.mod_small by lia. lia.
Qed.

(** A string that begins with a digit is read from its first character. *)
Lemma sscanf_d_digits s :
  starts_with_digit s = true →
  sscanf_d s = Some (to_int (strtol_clamp (digits_value s 0))).
Proof.
  destruct s as [|c s]; [done|].
  destruct c as [[] [] [] [] [] [] [] []];
    (intros H; vm_compute in H; discriminate H) || (intros _; reflexivity).
Qed.

Lemma sscanf_d_minus_digits s :
  starts_with_digit s = true →
  sscanf_d (String "-" s)
  = Some (to_int (strtol_clamp (- digits_value s 0))).
Proof.
  intros Hs. unfold sscanf_d.
  change (skip_spaces (String "-" s)) with (String "-" s).
  cbv beta iota zeta. by rewrite Hs.
Qed.

(** Reading back the decimal numeral of an [int] gives that [int]. *)
Lemma sscanf_d_pretty z :
  INT_MIN ≤ z ≤ INT_MAX → sscanf_d (pretty z) = Some z.
Proof.
  intros Hz. destruct z as [|p|p]; [reflexivity|..].
  - change (pretty (Z.pos p)) with (pretty_N_go (N.pos p) "").
    destruct (pretty_N_go_digits (N.pos p)) as (n & _ & _ & Hs).
    destruct (Hs ""%string) as (_ & Hdig & Hstart).
    rewrite sscanf_d_digits by (apply Hstart; lia).
    rewrite Hdig. cbn [digits_value]. by rewrite to_int_in_range.
  - change (pretty (Z.neg p)) with (String "-" (pretty_N_go (N.pos p) "")).
    destruct (pretty_N_go_digits (N.pos p)) as (n & _ & _ & Hs).
    destruct (Hs ""%string) as (_ & Hdig & Hstart).
    rewrite sscanf_d_minus_digits by (apply Hstart; lia).
    rewrite Hdig. cbn [digits_value].
    change (0 * 10 ^ Z.of_nat n + Z.of_N (N.pos p)) with (Z.pos p).
    by rewrite to_int_in_range.
Qed.

Lemma pretty_Z_length z :
  INT_MIN ≤ z ≤ INT_MAX → (String.length (pretty z) ≤ 11)%nat.
Proof.
  unfold INT_MIN, INT_MAX. intros Hz. destruct z as [|p|p]; [cbn; lia|..].
  - change (pretty (Z.pos p)) with (pretty (N.pos p)).
    pose proof (pretty_N_length (N.pos p) 10 ltac:(lia) ltac:(cbn; lia)). lia.
  - change (pretty (Z.neg p)) with (String "-" (pretty (N.pos p))).
    cbn [String.length].
    pose proof (pretty_N_length (N.pos p) 10 ltac:(lia) ltac:(cbn; lia)). lia.
Qed.

(** [%0wd] of a non-negative number of at most [w] digits takes exactly [w]
    characters. *)
Lemma fmt_0d_width w z :
  (1 ≤ w)%nat → 0 ≤ z < 10 ^ Z.of_nat w → String.length (fmt_0d w z) = w.
Proof.
  intros Hw Hz. unfold fmt_0d. rewrite bool_decide_false by lia.
  rewrite !String_length_app, zeros_length. cbn [String.length].
  pose proof (pretty_N_length (Z.abs_N z) w Hw) as Hlen.
  rewrite N2Z.inj_abs_N, Z.abs_eq in Hlen by lia.
  specialize (Hlen ltac:(lia)). lia.
Qed.

(** [%0wd] of any [int] takes at most 11 characters when [w] is at most 11. *)
Lemma fmt_0d_bound w z :
  (w ≤ 11)%nat → INT_MIN ≤ z ≤ INT_MAX →
  (String.length (fmt_0d w z) ≤ 11)%nat.
Proof.
  unfold INT_MIN, INT_MAX. intros Hw Hz. unfold fmt_0d.
  rewrite !String_length_app, zeros_length.
  pose proof (pretty_N_length (Z.abs_N z) 10 ltac:(lia)) as Hlen.
  rewrite N2Z.inj_abs_N in Hlen. specialize (Hlen ltac:(cbn; lia)).
  case_bool_decide; cbn [String.length]; lia.
Qed.

End decimal.

(** X11. The decimal numeral of any [int] after one of the ten prefixes puts
    that [int], negative or not, into the slot of the prefix. *)
Theorem decimal_flag_round_trip (v : list Z) (j : nat) (z : Z) :
  length v = nparams → (j < nparams)%nat → INT_MIN ≤ z ≤ INT_MAX →
  prefix_arg v (cparams !!! j +:+ pretty z) !!! j = z.
Proof.
  intros Hlen Hj Hz. rewrite prefix_arg_lookup by done.
  unfold flag_reading.
  rewrite (proj2 (strip_prefix_app (cparams !!! j) _ (pretty z)) eq_refl).
  cbn [fmap option_fmap option_map default].
  by rewrite sscanf_d_pretty.
Qed.

Lemma decimal_flag_round_trip_witness :
  length zero_iparams = nparams ∧ (3 < nparams)%nat
  ∧ INT_MIN ≤ -1800 ≤ INT_MAX
  ∧ prefix_arg zero_iparams ("--rt=" +:+ pretty (-1800)) !!! 3%nat = -1800.
Proof.
  assert (H1 : (3 < nparams)%nat) by (vm_compute; lia).
  assert (H2 : INT_MIN ≤ -1800 ≤ INT_MAX) by (vm_compute; split; discriminate).
  split; [reflexivity|]. split; [exact H1|]. split; [exact H2|].
  exact (decimal_flag_round_trip zero_iparams 3 (-1800) eq_refl H1 H2).
Defined.

(** ** The log file names *)

Section log_names.
Implicit Types (w : World) (t : tm).

Lemma HPCG_Init_fout w :
  HPCG_fout (HPCG_Init w)
  = let rank := if HPCG_NO_MPI (build w) then 0 else world_rank w in
    if bool_decide (0 = rank) then SharesStdout
    else if HPCG_DEBUG (build w)
         then OpenedFile (fname_160 (localtime w) rank)
         else OpenedFile (NULLDEVICE (build w)).
Proof.
  unfold HPCG_Init.
  destruct (no_geometry _), (HPCG_NO_MPI (build w)); reflexivity.
Qed.

Lemma stamp_length t :
  String.length (stamp t)
  = (5 + String.length (fmt_0d 4 (1900 + tm_year t))
     + String.length (fmt_0d 2 (tm_mon t + 1))
     + String.length (fmt_0d 2 (tm_mday t))
     + String.length (fmt_0d 2 (tm_hour t))
     + String.length (fmt_0d 2 (tm_min t))
     + String.length (fmt_0d 2 (tm_sec t)))%nat.
Proof.
  unfold stamp. rewrite !String_length_app. cbn [String.length]. lia.
Qed.

Lemma stamp_bound t :
  tm_in_range t → (String.length (stamp t) ≤ 26)%nat.
Proof.
  unfold tm_in_range, INT_MIN, INT_MAX.
  intros (Hy & Hmon & Hday & Hh & Hm & Hs). rewrite stamp_length.
  pose proof (fmt_0d_bound 4 (1900 + tm_year t) ltac:(lia)
                ltac:(unfold INT_MIN, INT_MAX; lia)).
  rewrite !(fmt_0d_width 2) by (cbn; lia). lia.
Qed.

End log_names.

(** X12. With the field ranges of [struct tm] and an [int] rank, the name line
    151 writes and the name the process opens fit the 80 characters of
    [fname], terminating NUL included. *)
Theorem log_names_fit_fname (w : World) :
  tm_in_range (localtime w) → INT_MIN ≤ world_rank w ≤ INT_MAX →
  (String.length (fname_151 (localtime w)) < 80)%nat
  ∧ ∀ name, HPCG_fout (HPCG_Init w) = OpenedFile name →
            (String.length name < 80)%nat.
Proof.
  intros Ht Hrank. pose proof (stamp_bound _ Ht) as Hstamp. split.
  - unfold fname_151. rewrite String_length_app. cbn [String.length]. lia.
  - intros name. rewrite HPCG_Init_fout. cbv zeta.
    case_bool_decide; [done|].
    destruct (HPCG_DEBUG (build w)); intros [= <-].
    + unfold fname_160. rewrite !String_length_app. cbn [String.length].
      pose proof (pretty_Z_length
                    (if HPCG_NO_MPI (build w) then 0 else world_rank w)) as Hr.
      destruct (HPCG_NO_MPI (build w)); [done|].
      specialize (Hr Hrank). lia.
    + unfold NULLDEVICE. destruct (WIN32 (build w)); cbn; lia.
Qed.

Lemma log_names_fit_fname_witness :
  tm_in_range (localtime rank1_no_args)
  ∧ INT_MIN ≤ world_rank rank1_no_args ≤ INT_MAX
  ∧ (String.length (fname_151 (localtime rank1_no_args)) < 80)%nat.
Proof.
  assert (H1 : tm_in_range (localtime rank1_no_args))
    by (vm_compute; repeat split; discriminate).
  assert (H2 : INT_MIN ≤ world_rank rank1_no_args ≤ INT_MAX)
    by (vm_compute; split; discriminate).
  split; [exact H1|]. split; [exact H2|].
  exact (proj1 (log_names_fit_fname rank1_no_args H1 H2)).
Defined.

(** X13. For the years 0 to 9999 the name of line 151 has exactly 23
    characters: every field of the time stamp has a fixed width. *)
Theorem fname_fixed_width (t : tm) :
  tm_in_range t → 0 ≤ 1900 + tm_year t ≤ 9999 →
  String.length (fname_151 t) = 23%nat.
Proof.
  unfold tm_in_range. intros (_ & Hmon & Hday & Hh & Hm & Hs) Hy.
  unfold fname_151. rewrite String_length_app, stamp_length.
  rewrite (fmt_0d_width 4), !(fmt_0d_width 2) by (cbn; lia).
  reflexivity.
Qed.

Lemma fname_fixed_width_witness :
  tm_in_range t0 ∧ 0 ≤ 1900 + tm_year t0 ≤ 9999
  ∧ String.length (fname_151 t0) = 23%nat.
Proof.
  assert (H1 : tm_in_range t0) by (vm_compute; repeat split; discriminate).
  assert (H2 : 0 ≤ 1900 + tm_year t0 ≤ 9999)
    by (vm_compute; split; discriminate).
  split; [exact H1|]. split; [exact H2|].
  exact (fname_fixed_width t0 H1 H2).
Defined.

(** X14. In a debug build with MPI, two processes of non-zero rank that take
    the same time stamp open the same file only if they have the same
    rank. *)
Theorem debug_logs_distinct (w1 w2 : World) :
  HPCG_NO_MPI (build w1) = false → HPCG_NO_MPI (build w2) = false →
  HPCG_DEBUG (build w1) = true → HPCG_DEBUG (build w2) = true →
  world_rank w1 ≠ 0 → world_rank w2 ≠ 0 →
  localtime w1 = localtime w2 →
  HPCG_fout (HPCG_Init w1) = HPCG_fout (HPCG_Init w2) →
  world_rank w1 = world_rank w2.
Proof.
  intros Hm1 Hm2 Hd1 Hd2 Hr1 Hr2 Ht. rewrite !HPCG_Init_fout. cbv zeta.
  rewrite Hm1, Hm2, Hd1, Hd2, Ht.
  rewrite !bool_decide_false by (intros ?; congruence).
  unfold fname_160. intros [= Heq].
  apply (inj (String.app _)) in Heq. apply (inj (String.app _)) in Heq.
  apply String_app_inv_tail in Heq. by apply (inj pretty) in Heq.
Qed.

Lemma debug_logs_distinct_witness :
  HPCG_fout (HPCG_Init debug_rank2) = HPCG_fout (HPCG_Init debug_rank2')
  ∧ world_rank debug_rank2 = world_rank debug_rank2'.
Proof.
  assert (H : HPCG_fout (HPCG_Init debug_rank2)
              = HPCG_fout (HPCG_Init debug_rank2')) by reflexivity.
  assert (Hr : world_rank debug_rank2 ≠ 0) by (vm_compute; discriminate).
  assert (Hr' : world_rank debug_rank2' ≠ 0) by (vm_compute; discriminate).
  split; [exact H|].
  exact (debug_logs_distinct debug_rank2 debug_rank2'
           eq_refl eq_refl eq_refl eq_refl Hr Hr' eq_refl H).
Defined.

(** X15. The log goes to the standard output exactly on the process whose
    [comm_rank] field is 0; every other process opens a file. *)
Theorem stdout_iff_rank_zero (w : World) :
  HPCG_fout (HPCG_Init w) = SharesStdout
  ↔ comm_rank (params (HPCG_Init w)) = 0.
Proof.
  rewrite HPCG_Init_fout. cbv zeta.
  assert (comm_rank (params (HPCG_Init w))
          = if HPCG_NO_MPI (build w) then 0 else world_rank w) as ->.
  { unfold HPCG_Init.
    destruct (no_geometry _), (HPCG_NO_MPI (build w)); reflexivity. }
  case_bool_decide as Hrank; [done|].
  split; [|by intros ?; destruct Hrank].
  by destruct (HPCG_DEBUG (build w)).
Qed.

(** X16. When the command line gives all three dimensions at least 16, the ten
    resolved fields are the command-line vector itself: nothing is read,
    broadcast or adjusted. *)
Theorem large_geometry_exact (w : World) :
  16 ≤ parse_command_line (argv w) !!! 0%nat →
  16 ≤ parse_command_line (argv w) !!! 1%nat →
  16 ≤ parse_command_line (argv w) !!! 2%nat →
  calls (HPCG_Init w) = []
  ∧ resolved (params (HPCG_Init w)) = parse_command_line (argv w).
Proof.
  intros H0 H1 H2.
  assert (Hgeo : no_geometry (parse_command_line (argv w)) = false).
  { unfold no_geometry. rewrite (bool_decide_false (_ !!! 0%nat = 0)) by lia.
    done. }
  split.
  - unfold HPCG_Init. fold (parse_command_line (argv w)). rewrite Hgeo.
    by rewrite andb_false_r.
  - rewrite HPCG_Init_resolved. unfold final_vector, local_vector, file_stage.
    rewrite Hgeo, andb_false_r, normalize_unfold.
    rewrite (normalize_dim_large _ 0) by done.
    rewrite (normalize_dim_large _ 1) by done.
    rewrite (normalize_dim_large _ 2) by done.
    apply slots_id, parse_command_line_length.
Qed.

Lemma large_geometry_exact_witness :
  resolved (params (HPCG_Init large_geometry))
  = parse_command_line (argv large_geometry).
Proof.
  apply (large_geometry_exact large_geometry); vm_compute; discriminate.
Defined.
